(** * Event-to-span correlation of the webhook handler

    A shallow embedding of [eventsources/webhooks/http.go]: the secret
    resolution of the webhook, and the three handlers that turn a
    normalized Start/End event into span operations against the tracer,
    the Span Store and the Trace Store.

    The handlers are written in a small state-and-error monad: the state is
    everything a call can touch (both stores, the tracer's spans and the
    sequence of collaborator calls made so far); an error stops the handler
    but leaves in place whatever it already did, like Go's
    [if err != nil { return err }].

    The [ctx] argument is only passed on to the stores and is left out.  The
    two stores, the tracer and the event are interfaces whose
    implementations live outside this package; their models below follow
    the contracts of sections 3 and 4 of the specification. *)

From stdpp Require Import gmap strings list fin_maps.
From Stdlib Require Import Strings.Byte.

Open Scope string_scope.
Open Scope list_scope.

(** ** Errors and results *)

(** Go's [error] values that this file can see.  [Errorf] keeps the format
    and its arguments apart, as [fmt.Errorf] receives them;
    [SpanMissingError] is [traces.SpanMissingError{Err: ...}];
    [ErrorString] is an error produced by a collaborator (an event accessor
    or a store). *)
Inductive error : Type :=
| ErrorString (msg : string)
| Errorf (format : string) (args : list string)
| SpanMissingError (Err : error).

(** A Go pair [(value, error)] where the value is read only when the error
    is nil. *)
Inductive result (A : Type) : Type :=
| Ok (a : A)
| Err (e : error).
Arguments Ok {A} a.
Arguments Err {A} e.

(** ** Spans and the tracer *)

(** A value given to [span.SetTag] ([interface{}] in Go). *)
Inductive tag_value : Type :=
| VBool (b : bool)
| VString (s : string)
| VInt (z : Z).

(** An [opentracing.Span] is a reference; two stores may hold the same one.
    It is the position of the span among the tracer's spans. *)
Abbreviation span_ref := nat (only parsing).

(** [span.Context()]. *)
Inductive SpanContext : Type :=
| Context (span : span_ref).

(** An [opentracing.StartSpanOption]; the handler only builds [ChildOf]. *)
Inductive StartSpanOption : Type :=
| ChildOf (parent : SpanContext).

(** Modelled from the spec: the span object of the tracing backend, which
    is not part of this package.  It keeps what the handler does to it: the
    operation name and options it was started with, its tags (a later
    [SetTag] on a key replaces the earlier one) and how many times it was
    finished. *)
Record SpanData : Type := mkSpanData {
  operation : string;
  references : list StartSpanOption;
  tags : gmap string tag_value;
  finishes : nat
}.

(** Modelled from the spec: the [opentracing.Tracer] handed to the handler,
    as the spans it has started so far. *)
Record Tracer : Type := mkTracer {
  spans : list SpanData
}.

(** ** The span stores *)

(** Modelled from the spec: [traces.SpanStore], the interface behind both
    [wh.Traces] and [wh.Spans] (section 4.1: Get, Set, Delete, each of which
    may return an error).  [entries] is the content; the three other fields
    say, per key, whether the backend fails that operation and with which
    error.  A failed operation leaves the content as it was. *)
Record SpanStore : Type := mkSpanStore {
  entries : gmap string span_ref;
  get_fault : string -> option error;
  set_fault : string -> option error;
  delete_fault : string -> option error
}.

(** [Get(ctx, tracer, id)]: the stored span, [None] (Go's nil, without
    error) when the key is absent. *)
Definition store_get (s : SpanStore) (id : string) : result (option span_ref) :=
  match get_fault s id with
  | Some err => Err err
  | None => Ok (entries s !! id)
  end.

(** [Set(ctx, id, span)]: stores or overwrites. *)
Definition store_set (s : SpanStore) (id : string) (span : span_ref)
  : SpanStore * option error :=
  match set_fault s id with
  | Some err => (s, Some err)
  | None =>
      (mkSpanStore (<[id := span]> (entries s))
                   (get_fault s) (set_fault s) (delete_fault s), None)
  end.

(** [Delete(ctx, id)]: removes the key; deleting an absent key is not an
    error. *)
Definition store_delete (s : SpanStore) (id : string)
  : SpanStore * option error :=
  match delete_fault s id with
  | Some err => (s, Some err)
  | None =>
      (mkSpanStore (delete id (entries s))
                   (get_fault s) (set_fault s) (delete_fault s), None)
  end.

(** A store that never fails. *)
Definition reliable (m : gmap string span_ref) : SpanStore :=
  mkSpanStore m (fun _ => None) (fun _ => None) (fun _ => None).

(** ** Events *)

(** Modelled from the spec: the values of [eventsources.SpanState]; the
    handler tells [StartState] and [EndState] from every other value. *)
Inductive SpanState : Type :=
| StartState
| EndState
| OtherState (name : string).

(** Modelled from the spec: [eventsources.Event], a read-only view whose
    accessors can each fail on their own (section 3 and section 9); only
    [OperationName] returns no error.  A [*string] is an [option string]. *)
Record Event : Type := mkEvent {
  State : result SpanState;
  SpanID : result string;
  TraceID : result (option string);
  ParentSpanID : result (option string);
  OperationName : string;
  Tags : result (gmap string tag_value);
  IsError : result bool
}.

(** ** The webhook *)

(** A Go [[]byte]: [None] is the nil slice. *)
Definition bytes : Type := option (list byte).

(** The fields of [Webhook] that the functions below read.  [Traces] and
    [Spans] are two stores: a trace identifier and a span identifier live
    in separate namespaces (section 4.2). *)
Record Webhook : Type := mkWebhook {
  SecretKey : bytes;
  Traces : SpanStore;
  Spans : SpanStore
}.

(** ** The state a handler runs in *)

Inductive StoreName : Type :=
| TracesStore
| SpansStore.

(** One call made to a collaborator: a store operation or a tracer or span
    operation. *)
Inductive Call : Type :=
| CallGet (store : StoreName) (id : string)
| CallSet (store : StoreName) (id : string) (span : span_ref)
| CallDelete (store : StoreName) (id : string)
| CallStartSpan (op : string) (opts : list StartSpanOption)
| CallSetTag (span : span_ref) (key : string) (value : tag_value)
| CallFinish (span : span_ref).

(** The receiver [wh] with its two stores, the [tracer] argument, and the
    calls made so far, oldest first. *)
Record World : Type := mkWorld {
  wh : Webhook;
  tracer : Tracer;
  calls : list Call
}.

Definition record_call (c : Call) (w : World) : World :=
  mkWorld (wh w) (tracer w) (calls w ++ [c]).

Definition store_of (n : StoreName) (h : Webhook) : SpanStore :=
  match n with
  | TracesStore => Traces h
  | SpansStore => Spans h
  end.

Definition with_store (n : StoreName) (s : SpanStore) (h : Webhook) : Webhook :=
  match n with
  | TracesStore => mkWebhook (SecretKey h) s (Spans h)
  | SpansStore => mkWebhook (SecretKey h) (Traces h) s
  end.

(** ** The handler monad *)

Definition M (A : Type) : Type := World -> World * result A.

Definition ret {A : Type} (a : A) : M A := fun w => (w, Ok a).

Definition bind {A B : Type} (m : M A) (k : A -> M B) : M B :=
  fun w =>
    match m w with
    | (w', Ok a) => k a w'
    | (w', Err e) => (w', Err e)
    end.

Notation "x <- m ;; k" := (bind m (fun x => k))
  (at level 100, m at next level, right associativity).
Notation "m ;;; k" := (bind m (fun _ => k))
  (at level 100, right associativity).

(** [v, err := f(); if err != nil { return err }] for an event accessor. *)
Definition try {A : Type} (r : result A) : M A := fun w => (w, r).

(** [return err]. *)
Definition fail {A : Type} (e : error) : M A := fun w => (w, Err e).

(** [if err != nil { return err }]. *)
Definition check (err : option error) : M unit :=
  fun w =>
    match err with
    | Some e => (w, Err e)
    | None => (w, Ok tt)
    end.

(** *** Store calls *)

(** [wh.Traces.Get(ctx, tracer, id)] or [wh.Spans.Get(ctx, tracer, id)]: a
    read; it hands back the stored span. *)
Definition Get (n : StoreName) (id : string) : M (option span_ref) :=
  fun w => (record_call (CallGet n id) w, store_get (store_of n (wh w)) id).

(** [Set] and [Delete] hand their error back as a value: what to do with it
    is the caller's business. *)
Definition Set_ (n : StoreName) (id : string) (span : span_ref)
  : M (option error) :=
  fun w =>
    let (s, err) := store_set (store_of n (wh w)) id span in
    (mkWorld (with_store n s (wh w)) (tracer w)
             (calls w ++ [CallSet n id span]), Ok err).

Definition Delete (n : StoreName) (id : string) : M (option error) :=
  fun w =>
    let (s, err) := store_delete (store_of n (wh w)) id in
    (mkWorld (with_store n s (wh w)) (tracer w)
             (calls w ++ [CallDelete n id]), Ok err).

(** *** Tracer and span calls *)

Definition new_span (op : string) (opts : list StartSpanOption) : SpanData :=
  mkSpanData op opts ∅ 0.

Definition set_tag (key : string) (value : tag_value) (sp : SpanData) : SpanData :=
  mkSpanData (operation sp) (references sp) (<[key := value]> (tags sp))
             (finishes sp).

Definition finish (sp : SpanData) : SpanData :=
  mkSpanData (operation sp) (references sp) (tags sp) (S (finishes sp)).

(** [tracer.StartSpan(op, opts...)]: cannot fail; the new span is the last
    one of the tracer. *)
Definition StartSpan (op : string) (opts : list StartSpanOption) : M span_ref :=
  fun w =>
    (mkWorld (wh w) (mkTracer (spans (tracer w) ++ [new_span op opts]))
             (calls w ++ [CallStartSpan op opts]),
     Ok (length (spans (tracer w)))).

(** A method call on a span changes that span wherever it is referenced.  (A
    number that is not a span of the tracer changes nothing; Go has no such
    reference.) *)
Definition on_span (f : SpanData -> SpanData) (span : span_ref) (t : Tracer)
  : Tracer :=
  mkTracer (alter f span (spans t)).

(** [span.SetTag(key, value)]. *)
Definition SetTag (span : span_ref) (key : string) (value : tag_value) : M unit :=
  fun w =>
    (mkWorld (wh w) (on_span (set_tag key value) span (tracer w))
             (calls w ++ [CallSetTag span key value]), Ok tt).

(** [span.Finish()]. *)
Definition Finish (span : span_ref) : M unit :=
  fun w =>
    (mkWorld (wh w) (on_span finish span (tracer w))
             (calls w ++ [CallFinish span]), Ok tt).

(** [for k, v := range m { body }], over the pairs of the map in the order
    the loop visits them. *)
Fixpoint range (kvs : list (string * tag_value))
    (body : string -> tag_value -> M unit) : M unit :=
  match kvs with
  | [] => ret tt
  | (k, v) :: rest => body k v ;;; range rest body
  end.

(** ** The functions of http.go *)

(** What [r.Context().Value(CtxSecretTokenKey)] can be: no value at all (a
    nil interface), a [[]byte] (possibly the nil slice), or a value of
    another type. *)
Inductive ContextValue : Type :=
| NoValue
| BytesValue (v : bytes)
| OtherValue (v : string).

(** The part of [*http.Request] that [secretKey] reads. *)
Record Request : Type := mkRequest {
  CtxSecretToken : ContextValue
}.

(** [v, ok := k.([]byte)]. *)
Definition as_bytes (k : ContextValue) : bytes * bool :=
  match k with
  | BytesValue v => (v, true)
  | _ => (None, false)
  end.

(** [func (wh Webhook) secretKey(r *http.Request) []byte], lines 49-57. *)
Definition secretKey (h : Webhook) (r : Request) : bytes :=
  let sk := SecretKey h in
  let k := CtxSecretToken r in
  let (v, ok) := as_bytes k in
  if ok && bool_decide (v <> None) then v else sk.

(** [handleStartEvent], lines 110-168.  The error of [wh.Traces.Set] (line
    154) is not assigned to anything; that of [wh.Spans.Set] (line 163) is
    returned. *)
Definition handleStartEvent (e : Event) : M unit :=
  parentID <- try (ParentSpanID e) ;;
  opts <- match parentID with
          | Some pid =>
              parentSpan <- Get TracesStore pid ;;
              match parentSpan with
              | Some p => ret [ChildOf (Context p)]
              | None => ret []
              end
          | None => ret []
          end ;;
  span <- StartSpan (OperationName e) opts ;;
  tags <- try (Tags e) ;;
  range (map_to_list tags) (fun k v => SetTag span k v) ;;;
  traceID <- try (TraceID e) ;;
  match traceID with
  | Some tid => _ <- Set_ TracesStore tid span ;; ret tt
  | None => ret tt
  end ;;;
  spanID <- try (SpanID e) ;;
  err <- Set_ SpansStore spanID span ;;
  check err.

(** [handleEndEvent], lines 170-213. *)
Definition handleEndEvent (e : Event) : M unit :=
  spanID <- try (SpanID e) ;;
  span <- Get SpansStore spanID ;;
  match span with
  | None =>
      fail (SpanMissingError (Errorf "span not found for span: %q" [spanID]))
  | Some span =>
      isE <- try (IsError e) ;;
      SetTag span "error" (VBool isE) ;;;
      Finish span ;;;
      err <- Delete SpansStore spanID ;;
      check err ;;;
      traceID <- try (TraceID e) ;;
      match traceID with
      | Some tid => err <- Delete TracesStore tid ;; check err
      | None => ret tt
      end
  end.

(** [handleEvent], lines 215-230: the [switch] has no default case. *)
Definition handleEvent (e : Event) : M unit :=
  state <- try (State e) ;;
  match state with
  | StartState => handleStartEvent e
  | EndState => handleEndEvent e
  | OtherState _ => ret tt
  end.

(** ** Vocabulary of the statements *)

(** The tags of a span after the loop [for k, v := range tags] has set the
    pairs [kvs] on it, in that order. *)
Definition apply_tags (kvs : list (string * tag_value)) (sp : SpanData) : SpanData :=
  foldl (fun sp kv => set_tag kv.1 kv.2 sp) sp kvs.

(** The [SetTag] calls of that loop. *)
Definition tag_calls (span : span_ref) (kvs : list (string * tag_value)) : list Call :=
  map (fun kv => CallSetTag span kv.1 kv.2) kvs.

(** The same event, declaring no parent. *)
Definition without_parent (e : Event) : Event :=
  mkEvent (State e) (SpanID e) (TraceID e) (Ok None) (OperationName e)
          (Tags e) (IsError e).

(** Is the call a store registration ([Set]), or the finishing of a span? *)
Definition is_Set (c : Call) : bool :=
  match c with
  | CallSet _ _ _ => true
  | _ => false
  end.

Definition is_Finish (c : Call) : bool :=
  match c with
  | CallFinish _ => true
  | _ => false
  end.

(** ** Scenarios *)

Definition unavailable : string -> option error :=
  fun _ => Some (ErrorString "store unavailable").

Definition no_fault : string -> option error := fun _ => None.

Definition world (traces spans : SpanStore) (started : list SpanData) : World :=
  mkWorld (mkWebhook None traces spans) (mkTracer started) [].

Definition empty_world : World := world (reliable ∅) (reliable ∅) [].

Definition start_event (span : string) (trace parent : option string)
    (op : string) (tags : gmap string tag_value) : Event :=
  mkEvent (Ok StartState) (Ok span) (Ok trace) (Ok parent) op (Ok tags)
          (Ok false).

Definition end_event (span : string) (trace : option string) (isError : bool)
  : Event :=
  mkEvent (Ok EndState) (Ok span) (Ok trace) (Ok None) "ticket.process"
          (Ok ∅) (Ok isError).

(** Start [{SpanID: s1, TraceID: t1, OperationName: ticket.process}]. *)
Definition start_s1 : Event :=
  start_event "s1" (Some "t1") None "ticket.process"
              (<["source" := VString "tickets"]> ∅).

(** End [{SpanID: s1, TraceID: t1, IsError: false}]. *)
Definition end_s1 : Event := end_event "s1" (Some "t1") false.

(** The world after [start_s1] was handled in the empty world. *)
Definition world_s1 : World := (handleStartEvent start_s1 empty_world).1.

(** The span that [start_s1] opens, and stores that hold it (it is span 0
    of the tracer) under [key]. *)
Definition span_s1 : SpanData :=
  mkSpanData "ticket.process" [] (<["source" := VString "tickets"]> ∅) 0.

Definition holding (key : string) : gmap string nat := <[key := 0]> ∅.

Definition failing_set (m : gmap string nat) : SpanStore :=
  mkSpanStore m no_fault unavailable no_fault.

Definition failing_delete (m : gmap string nat) : SpanStore :=
  mkSpanStore m no_fault no_fault unavailable.

(** [s1] is open, and the Span Store cannot delete. *)
Definition world_spans_delete_fails : World :=
  world (reliable (holding "t1")) (failing_delete (holding "s1")) [span_s1].

(** [s1] is open, and the Trace Store cannot delete. *)
Definition world_traces_delete_fails : World :=
  world (failing_delete (holding "t1")) (reliable (holding "s1")) [span_s1].

(** Nothing is open, and the Trace Store cannot write. *)
Definition world_traces_set_fails : World :=
  world (failing_set ∅) (reliable ∅) [].

(** A Start event whose [ParentSpanID] and [Tags] accessors both fail. *)
Definition start_unreadable : Event :=
  mkEvent (Ok StartState) (Ok "s1") (Ok None)
          (Err (ErrorString "parent: malformed payload")) "ticket.process"
          (Err (ErrorString "tags: malformed payload")) (Ok false).

(** A Start event whose [Tags] accessor fails. *)
Definition start_untagged : Event :=
  mkEvent (Ok StartState) (Ok "s1") (Ok (Some "t1")) (Ok None)
          "ticket.process" (Err (ErrorString "tags: malformed payload"))
          (Ok false).

(** Start [{SpanID: s2, TraceID: t2}], then Start
    [{SpanID: s3, ParentSpanID: t2}]. *)
Definition start_s2 : Event := start_event "s2" (Some "t2") None "release" ∅.
Definition start_s3 : Event := start_event "s3" None (Some "t2") "deploy" ∅.
Definition world_s2 : World := (handleStartEvent start_s2 empty_world).1.

(** Start [{SpanID: s4, ParentSpanID: t-late}] where no trace [t-late] is
    open. *)
Definition start_s4 : Event := start_event "s4" None (Some "t-late") "deploy" ∅.

Ltac run :=
  unfold handleEvent, handleStartEvent, handleEndEvent, bind, try, fail,
    check, ret, Get, Set_, Delete, StartSpan, SetTag, Finish, record_call;
  simpl.

(** ** The HTTP handler and the constructor *)

(** Modelled from the spec: [eventsources.EventSource] (section 6), whose
    implementations live outside this package.  [ValidatePayload] returns
    Go's pair [(payload, err)]: the handler logs the payload also when the
    error is set.  [Event_] is the method [Event]. *)
Record EventSource : Type := mkEventSource {
  ValidatePayload : Request -> bytes -> bytes * option error;
  Event_ : Request -> bytes -> result Event
}.

(** The interface [Tracers], lines 18-20.  The [io.Closer] that comes with
    the tracer shows up as the [CloserClose] effect below. *)
Record Tracers : Type := mkTracers {
  RequestScoped : Request -> EventSource -> result Tracer
}.

(** The [Webhook] struct with all five fields, lines 39-45. *)
Record Instance : Type := mkInstance {
  wh_EventSource : EventSource;
  wh_Tracers : Tracers;
  wh_fields : Webhook
}.


(** [http.StatusBadRequest]. *)
Definition StatusBadRequest : nat := 400.

(** What [Handler] does to the outside, in order: calls to its
    collaborators, log entries ([log.WithFields(...).Errorf(msg)] with the
    fields it was given), what it sends to the [http.ResponseWriter], the
    two deferred closes, and the store and tracer calls of [handleEvent]. *)
Inductive Effect : Type :=
| Validate (secret : bytes)
| Parse (payload : bytes)
| AcquireTracer
| LogErrorf (msg : string) (err : error) (payload : bytes)
    (event : option Event)
| HttpError (msg : string) (code : nat)
| ResponseWrite (data : string)
| BodyClose
| CloserClose
| Collaborator (c : Call).

(** A request, once served: the stores, the request-scoped tracer if one
    was obtained, and the effects. *)
Record Served : Type := mkServed {
  stores_after : Webhook;
  tracer_after : option Tracer;
  effects : list Effect
}.

(** [Handler], lines 59-108.  A [defer] runs when the function returns: the
    closes come after the response, the later one first. *)
Definition Handler (i : Instance) (r : Request) : Served :=
  let es := wh_EventSource i in
  let h := wh_fields i in
  let secret := secretKey h r in
  let (payload, err) := ValidatePayload es r secret in
  match err with
  | Some err =>
      mkServed h None
        [Validate secret;
         LogErrorf "unable to validate request" err payload None;
         HttpError "error" StatusBadRequest]
  | None =>
      match Event_ es r payload with
      | Err err =>
          mkServed h None
            [Validate secret; Parse payload;
             LogErrorf "unable to convert payload to event" err payload None;
             HttpError "error" StatusBadRequest;
             BodyClose]
      | Ok e =>
          match RequestScoped (wh_Tracers i) r es with
          | Err err =>
              mkServed h None
                [Validate secret; Parse payload; AcquireTracer;
                 LogErrorf "error getting tracer from request" err payload
                           None;
                 HttpError "error" StatusBadRequest;
                 BodyClose]
          | Ok t =>
              let (w, res) := handleEvent e (mkWorld h t []) in
              mkServed (wh w) (Some (tracer w))
                ([Validate secret; Parse payload; AcquireTracer]
                 ++ map Collaborator (calls w)
                 ++ match res with
                    | Err err =>
                        [LogErrorf "error processinng event" err payload
                                   (Some e);
                         HttpError "error" StatusBadRequest]
                    | Ok _ => [ResponseWrite "success"]
                    end
                 ++ [CloserClose; BodyClose])
          end
      end
  end.

(** ** More vocabulary *)

Definition is_Delete (c : Call) : bool :=
  match c with
  | CallDelete _ _ => true
  | _ => false
  end.

Definition is_StartSpan (c : Call) : bool :=
  match c with
  | CallStartSpan _ _ => true
  | _ => false
  end.

(** Is the effect something sent to the [http.ResponseWriter]? *)
Definition is_response (x : Effect) : bool :=
  match x with
  | HttpError _ _ | ResponseWrite _ => true
  | _ => false
  end.

Definition is_Collaborator (x : Effect) : bool :=
  match x with
  | Collaborator _ => true
  | _ => false
  end.

Definition is_close (x : Effect) : bool :=
  match x with
  | BodyClose | CloserClose => true
  | _ => false
  end.

Definition is_Validate (x : Effect) : bool :=
  match x with
  | Validate _ => true
  | _ => false
  end.

(** What was sent to the [http.ResponseWriter], in order. *)
Definition responses (xs : list Effect) : list Effect :=
  List.filter is_response xs.

(** The options that the parent resolution of [handleStartEvent] (lines
    112-129) passes to [StartSpan], when it does not fail. *)
Definition resolved_parent (e : Event) (w : World)
    (opts : list StartSpanOption) : Prop :=
  match ParentSpanID e with
  | Ok None => opts = []
  | Ok (Some pid) =>
      match store_get (Traces (wh w)) pid with
      | Ok (Some p) => opts = [ChildOf (Context p)]
      | Ok None => opts = []
      | Err _ => False
      end
  | Err _ => False
  end.

(** ** More scenarios *)

(** An event source that accepts every request with [secret] and yields
    [e], and one that rejects every request. *)
Definition source_of (e : Event) : EventSource :=
  mkEventSource (fun _ _ => (Some [], None)) (fun _ _ => Ok e).

Definition rejecting_source : EventSource :=
  mkEventSource (fun _ _ => (None, Some (ErrorString "bad signature")))
                (fun _ _ => Err (ErrorString "unreachable")).

Definition fresh_tracers : Tracers := mkTracers (fun _ _ => Ok (mkTracer [])).

Definition no_tracers : Tracers :=
  mkTracers (fun _ _ => Err (ErrorString "no tracer")).

Definition plain_request : Request := mkRequest NoValue.

Definition instance_of (e : Event) (h : Webhook) : Instance :=
  mkInstance (source_of e) fresh_tracers h.

(** An event that is neither a Start nor an End. *)
Definition comment_event : Event :=
  mkEvent (Ok (OtherState "comment")) (Ok "s1") (Ok (Some "t1")) (Ok None)
          "ticket.comment" (Ok ∅) (Ok false).

(** End [{SpanID: s-unknown}]. *)
Definition end_unknown : Event := end_event "s-unknown" None false.

(** An End event whose [IsError] accessor fails. *)
Definition end_unreadable : Event :=
  mkEvent (Ok EndState) (Ok "s1") (Ok (Some "t1")) (Ok None) "ticket.process"
          (Ok ∅) (Err (ErrorString "status: malformed payload")).


(** ** Running the monad *)

Lemma bind_Ok {A B : Type} (m : M A) (k : A -> M B) w w' a :
  m w = (w', Ok a) -> bind m k w = k a w'.
Proof. intros H. unfold bind. by rewrite H. Qed.

Lemma bind_Err {A B : Type} (m : M A) (k : A -> M B) w w' e :
  m w = (w', Err e) -> bind m k w = (w', Err e).
Proof. intros H. unfold bind. by rewrite H. Qed.

Lemma on_span_compose f g span t :
  on_span f span (on_span g span t) = on_span (f ∘ g) span t.
Proof. unfold on_span. simpl. by rewrite list_alter_alter_eq. Qed.

Lemma on_span_new f l sp :
  on_span f (length l) (mkTracer (l ++ [sp])) = mkTracer (l ++ [f sp]).
Proof.
  unfold on_span. simpl. f_equal.
  replace (length l) with (length l + 0) by lia.
  by rewrite alter_app_r.
Qed.

(** The tag loop in closed form: it cannot fail, touches no store, and
    changes the one span it is run on. *)
Lemma range_SetTag span kvs w :
  range kvs (fun k v => SetTag span k v) w =
  (mkWorld (wh w) (on_span (apply_tags kvs) span (tracer w))
           (calls w ++ tag_calls span kvs), Ok tt).
Proof.
  revert w. induction kvs as [|[k v] kvs IH]; intros w; simpl.
  - unfold ret, on_span. rewrite list_alter_id by done.
    rewrite app_nil_r. by destruct w as [? [?] ?].
  - unfold bind at 1. unfold SetTag at 1. rewrite IH. simpl.
    rewrite on_span_compose. rewrite <- app_assoc. done.
Qed.

(** Setting the pairs of a map leaves exactly the map's tags on top of the
    span's earlier ones, whatever order the loop takes. *)
Lemma apply_tags_fields kvs sp :
  operation (apply_tags kvs sp) = operation sp /\
  references (apply_tags kvs sp) = references sp /\
  finishes (apply_tags kvs sp) = finishes sp.
Proof.
  revert sp. induction kvs as [|[k v] kvs IH]; intros sp; simpl; [done|].
  destruct (IH (set_tag k v sp)) as (-> & -> & ->). done.
Qed.

Lemma apply_tags_tags kvs sp :
  NoDup kvs.*1 ->
  tags (apply_tags kvs sp) = list_to_map kvs ∪ tags sp.
Proof.
  revert sp. induction kvs as [|[k v] kvs IH]; intros sp Hnd; simpl.
  - by rewrite (left_id_L ∅ (∪)).
  - inversion Hnd as [|? ? Hk Hnd']; subst.
    change (tags (apply_tags kvs (set_tag k v sp)) =
            <[k := v]> (list_to_map kvs) ∪ tags sp).
    rewrite IH by done. simpl.
    rewrite <- insert_union_l. rewrite insert_union_r; [done|].
    by apply not_elem_of_list_to_map_1.
Qed.

Lemma apply_tags_map (m : gmap string tag_value) sp :
  apply_tags (map_to_list m) sp =
  mkSpanData (operation sp) (references sp) (m ∪ tags sp) (finishes sp).
Proof.
  pose proof (apply_tags_fields (map_to_list m) sp) as (Ho & Hr & Hf).
  pose proof (apply_tags_tags (map_to_list m) sp (NoDup_fst_map_to_list m)) as Ht.
  rewrite list_to_map_to_list in Ht.
  destruct (apply_tags (map_to_list m) sp); simpl in *. by subst.
Qed.

(** ** Secret resolution *)

(** C8: the secret is the request-scoped override when the request context
    carries one (a non-nil byte slice under the secret-token key), and the
    statically configured [SecretKey] in every other case: no value, a value
    of another type, or the nil slice. *)
Theorem secretKey_request_first (h : Webhook) (r : Request) :
  match CtxSecretToken r with
  | BytesValue (Some v) => secretKey h r = Some v
  | BytesValue None | NoValue | OtherValue _ => secretKey h r = SecretKey h
  end.
Proof.
  unfold secretKey. destruct (CtxSecretToken r) as [|[v|]|]; simpl; try done.
Qed.

(** ** Dispatch *)


Lemma handleEvent_End e :
  State e = Ok EndState -> handleEvent e = handleEndEvent e.
Proof. intros H. unfold handleEvent, bind, try. by rewrite H. Qed.

Lemma handleEvent_State_error e err w :
  State e = Err err -> handleEvent e w = (w, Err err).
Proof. intros H. unfold handleEvent, bind, try. by rewrite H. Qed.

(** C6: an event whose state resolves to neither Start nor End is a silent
    no-op: [handleEvent] returns no error and leaves the world as it was,
    the stores, the tracer's spans and the list of collaborator calls (so
    no store operation and no tracer call was made). *)
Theorem handleEvent_other_state_noop (e : Event) (w : World) (name : string) :
  State e = Ok (OtherState name) ->
  handleEvent e w = (w, Ok tt).
Proof. intros H. unfold handleEvent, bind, try, ret. by rewrite H. Qed.

Lemma handleEvent_other_state_noop_witness :
  let e := mkEvent (Ok (OtherState "comment")) (Ok "s1") (Ok (Some "t1"))
                   (Ok None) "ticket.comment" (Ok ∅) (Ok false) in
  State e = Ok (OtherState "comment") /\
  handleEvent e world_s1 = (world_s1, Ok tt).
Proof.
  split; [reflexivity|].
  apply (handleEvent_other_state_noop _ world_s1 "comment"). reflexivity.
Defined.

(** ** End handling *)

(** C1: an End event whose SpanID the Span Store does not hold (the lookup
    returns nil without error) fails with [SpanMissingError], whose inner
    error carries the span identifier, and neither store is changed: the
    only call made is the lookup itself. *)
Theorem handleEndEvent_span_missing (e : Event) (w : World) (sid : string) :
  SpanID e = Ok sid ->
  store_get (Spans (wh w)) sid = Ok None ->
  (handleEndEvent e w).2 =
    Err (SpanMissingError (Errorf "span not found for span: %q" [sid])) /\
  Spans (wh (handleEndEvent e w).1) = Spans (wh w) /\
  Traces (wh (handleEndEvent e w).1) = Traces (wh w) /\
  tracer (handleEndEvent e w).1 = tracer w /\
  calls (handleEndEvent e w).1 = calls w ++ [CallGet SpansStore sid].
Proof.
  intros Hsid Hget. run. rewrite Hsid. simpl. rewrite Hget. simpl. done.
Qed.

Lemma handleEndEvent_span_missing_witness :
  let e := end_event "s-unknown" None false in
  SpanID e = Ok "s-unknown" /\
  store_get (Spans (wh empty_world)) "s-unknown" = Ok None /\
  (handleEndEvent e empty_world).2 =
    Err (SpanMissingError (Errorf "span not found for span: %q" ["s-unknown"])) /\
  Spans (wh (handleEndEvent e empty_world).1) = Spans (wh empty_world) /\
  Traces (wh (handleEndEvent e empty_world).1) = Traces (wh empty_world) /\
  tracer (handleEndEvent e empty_world).1 = tracer empty_world /\
  calls (handleEndEvent e empty_world).1 =
    calls empty_world ++ [CallGet SpansStore "s-unknown"].
Proof.
  split; [reflexivity|]. split; [reflexivity|].
  apply (handleEndEvent_span_missing _ empty_world "s-unknown"); reflexivity.
Defined.

Lemma store_get_Some s id h :
  store_get s id = Ok (Some h) -> entries s !! id = Some h.
Proof. unfold store_get. destruct (get_fault s id); congruence. Qed.

Lemma lookup_tagged_finished t h sp key value :
  spans t !! h = Some sp ->
  spans (on_span finish h (on_span (set_tag key value) h t)) !! h =
    Some (mkSpanData (operation sp) (references sp)
                     (<[key := value]> (tags sp)) (S (finishes sp))).
Proof.
  intros Hsp. unfold on_span. simpl.
  rewrite !list_lookup_alter_eq, Hsp. done.
Qed.

(** C4, under the conditions that the code needs: an End event whose SpanID
    the Span Store holds (the lookup returns the span), whose [IsError] and
    [TraceID] accessors resolve, and for which neither the Span Store delete
    nor, when a TraceID is declared, the Trace Store delete fails, is
    handled successfully: the stored span gets the tag [error] set from
    [IsError] and is finished, the Span Store no longer holds the SpanID and
    the Trace Store no longer holds the declared TraceID. *)
Theorem handleEndEvent_closes_span (e : Event) (w : World) (sid : string)
    (h : span_ref) (sp : SpanData) (b : bool) (trace : option string) :
  SpanID e = Ok sid ->
  store_get (Spans (wh w)) sid = Ok (Some h) ->
  spans (tracer w) !! h = Some sp ->
  IsError e = Ok b ->
  TraceID e = Ok trace ->
  delete_fault (Spans (wh w)) sid = None ->
  (forall tid, trace = Some tid -> delete_fault (Traces (wh w)) tid = None) ->
  (handleEndEvent e w).2 = Ok tt /\
  spans (tracer (handleEndEvent e w).1) !! h =
    Some (mkSpanData (operation sp) (references sp)
                     (<["error" := VBool b]> (tags sp)) (S (finishes sp))) /\
  entries (Spans (wh (handleEndEvent e w).1)) !! sid = None /\
  (forall tid, trace = Some tid ->
     entries (Traces (wh (handleEndEvent e w).1)) !! tid = None).
Proof.
  intros Hsid Hget Hsp Hise Htid Hds Hdt. run.
  rewrite Hsid. simpl. rewrite Hget. simpl. rewrite Hise. simpl.
  unfold store_delete. rewrite Hds. simpl. rewrite Htid. simpl.
  destruct trace as [tid|]; simpl.
  - rewrite (Hdt tid eq_refl). simpl.
    repeat split.
    + by apply lookup_tagged_finished.
    + apply lookup_delete_eq.
    + intros ? [= <-]. apply lookup_delete_eq.
  - repeat split.
    + by apply lookup_tagged_finished.
    + apply lookup_delete_eq.
    + intros ? [=].
Qed.

Lemma handleEndEvent_closes_span_witness :
  SpanID end_s1 = Ok "s1" /\
  store_get (Spans (wh world_s1)) "s1" = Ok (Some 0) /\
  spans (tracer world_s1) !! 0 = Some span_s1 /\
  IsError end_s1 = Ok false /\
  TraceID end_s1 = Ok (Some "t1") /\
  (handleEndEvent end_s1 world_s1).2 = Ok tt /\
  spans (tracer (handleEndEvent end_s1 world_s1).1) !! 0 =
    Some (mkSpanData "ticket.process" []
            (<["error" := VBool false]> (<["source" := VString "tickets"]> ∅))
            1) /\
  entries (Spans (wh (handleEndEvent end_s1 world_s1).1)) !! "s1" = None /\
  (forall tid, Some "t1" = Some tid ->
     entries (Traces (wh (handleEndEvent end_s1 world_s1).1)) !! tid = None).
Proof.
  do 5 (split; [reflexivity|]).
  apply (handleEndEvent_closes_span end_s1 world_s1 "s1" 0 span_s1 false
           (Some "t1")); try reflexivity.
Defined.

(** C4 without those conditions fails: [s1] is open in the Span Store, yet
    handling its End event returns the error of the Span Store delete (so
    it does not succeed), and the Span Store still holds [s1] afterwards. *)
Lemma handleEndEvent_open_span_can_fail :
  SpanID end_s1 = Ok "s1" /\
  store_get (Spans (wh world_spans_delete_fails)) "s1" = Ok (Some 0) /\
  (handleEndEvent end_s1 world_spans_delete_fails).2 =
    Err (ErrorString "store unavailable") /\
  (handleEndEvent end_s1 world_spans_delete_fails).2 <> Ok tt /\
  entries (Spans (wh (handleEndEvent end_s1 world_spans_delete_fails).1)) !! "s1"
    = Some 0 /\
  entries (Spans (wh (handleEndEvent end_s1 world_spans_delete_fails).1)) !! "s1"
    <> None.
Proof.
  do 3 (split; [reflexivity|]). split; [simpl; discriminate|].
  split; [reflexivity|]. simpl. discriminate.
Qed.

(** C9: an error from [handleEndEvent] does not mean that nothing happened.
    When the span is present and finished, the Span Store delete went
    through, and then either the [TraceID] accessor or the Trace Store
    delete fails, [handleEndEvent] returns that error although the span is
    already tagged and finished and its entry is gone from the Span Store
    (which therefore differs from the one before the call); the Trace Store
    is as before. *)
Theorem handleEndEvent_error_after_finish (e : Event) (w : World)
    (sid : string) (h : span_ref) (sp : SpanData) (b : bool) (err : error) :
  SpanID e = Ok sid ->
  store_get (Spans (wh w)) sid = Ok (Some h) ->
  spans (tracer w) !! h = Some sp ->
  IsError e = Ok b ->
  delete_fault (Spans (wh w)) sid = None ->
  (TraceID e = Err err \/
   exists tid, TraceID e = Ok (Some tid) /\
               delete_fault (Traces (wh w)) tid = Some err) ->
  (handleEndEvent e w).2 = Err err /\
  spans (tracer (handleEndEvent e w).1) !! h =
    Some (mkSpanData (operation sp) (references sp)
                     (<["error" := VBool b]> (tags sp)) (S (finishes sp))) /\
  entries (Spans (wh w)) !! sid = Some h /\
  entries (Spans (wh (handleEndEvent e w).1)) !! sid = None /\
  Spans (wh (handleEndEvent e w).1) <> Spans (wh w) /\
  Traces (wh (handleEndEvent e w).1) = Traces (wh w).
Proof.
  intros Hsid Hget Hsp Hise Hds Hfail.
  pose proof (store_get_Some _ _ _ Hget) as Hin.
  assert (entries (Spans (wh (handleEndEvent e w).1)) !! sid = None ->
          Spans (wh (handleEndEvent e w).1) <> Spans (wh w)) as Hne.
  { intros Hout Heq. rewrite Heq in Hout. congruence. }
  revert Hne. run.
  rewrite Hsid. simpl. rewrite Hget. simpl. rewrite Hise. simpl.
  unfold store_delete. rewrite Hds. simpl.
  destruct Hfail as [Ht | (tid & Ht & Hd)]; rewrite Ht; simpl;
    [|rewrite Hd; simpl]; intros Hne.
  - repeat split; try done.
    + by apply lookup_tagged_finished.
    + apply lookup_delete_eq.
    + apply Hne, lookup_delete_eq.
  - repeat split; try done.
    + by apply lookup_tagged_finished.
    + apply lookup_delete_eq.
    + apply Hne, lookup_delete_eq.
Qed.

Lemma handleEndEvent_error_after_finish_witness :
  let w := world_traces_delete_fails in
  SpanID end_s1 = Ok "s1" /\
  store_get (Spans (wh w)) "s1" = Ok (Some 0) /\
  spans (tracer w) !! 0 = Some span_s1 /\
  IsError end_s1 = Ok false /\
  delete_fault (Spans (wh w)) "s1" = None /\
  TraceID end_s1 = Ok (Some "t1") /\
  delete_fault (Traces (wh w)) "t1" = Some (ErrorString "store unavailable") /\
  (handleEndEvent end_s1 w).2 = Err (ErrorString "store unavailable") /\
  spans (tracer (handleEndEvent end_s1 w).1) !! 0 =
    Some (mkSpanData "ticket.process" []
            (<["error" := VBool false]> (<["source" := VString "tickets"]> ∅))
            1) /\
  entries (Spans (wh w)) !! "s1" = Some 0 /\
  entries (Spans (wh (handleEndEvent end_s1 w).1)) !! "s1" = None /\
  Spans (wh (handleEndEvent end_s1 w).1) <> Spans (wh w) /\
  Traces (wh (handleEndEvent end_s1 w).1) = Traces (wh w).
Proof.
  do 7 (split; [reflexivity|]).
  apply (handleEndEvent_error_after_finish end_s1 world_traces_delete_fails
           "s1" 0 span_s1 false (ErrorString "store unavailable"));
    try reflexivity.
  right. exists "t1". split; reflexivity.
Defined.

(** ** Start handling *)

Ltac start_step :=
  match goal with
  | |- context [range _ _ _] => rewrite range_SetTag
  | |- context [match Tags ?e with _ => _ end] =>
      destruct (Tags e) eqn:?
  | |- context [match TraceID ?e with _ => _ end] =>
      destruct (TraceID e) as [[?|]|] eqn:?
  | |- context [match SpanID ?e with _ => _ end] =>
      destruct (SpanID e) eqn:?
  | |- context [match set_fault ?s ?k with _ => _ end] =>
      destruct (set_fault s k) eqn:?
  end; simpl.

Ltac start_cases :=
  repeat
    (match goal with
     | |- context [range _ _ _] => rewrite range_SetTag
     | |- context [match ParentSpanID ?e with _ => _ end] =>
         destruct (ParentSpanID e) as [[?|]|] eqn:?
     | |- context [match get_fault ?s ?k with _ => _ end] =>
         destruct (get_fault s k) eqn:?
     | |- context [match entries ?s !! ?k with _ => _ end] =>
         destruct (entries s !! k) eqn:?
     | |- context [match Tags ?e with _ => _ end] =>
         destruct (Tags e) eqn:?
     | |- context [match TraceID ?e with _ => _ end] =>
         destruct (TraceID e) as [[?|]|] eqn:?
     | |- context [match SpanID ?e with _ => _ end] =>
         destruct (SpanID e) eqn:?
     | |- context [match set_fault ?s ?k with _ => _ end] =>
         destruct (set_fault s k) eqn:?
     end; simpl).

Ltac run_start :=
  unfold handleStartEvent, bind, try, fail, check, ret, Get, Set_, StartSpan,
    store_get, store_set, record_call;
  simpl.

Lemma handleStartEvent_ParentSpanID_error e w err :
  ParentSpanID e = Err err -> handleStartEvent e w = (w, Err err).
Proof. intros H. run_start. by rewrite H. Qed.

Lemma handleStartEvent_parent_lookup_error e w pid err :
  ParentSpanID e = Ok (Some pid) ->
  get_fault (Traces (wh w)) pid = Some err ->
  handleStartEvent e w = (record_call (CallGet TracesStore pid) w, Err err).
Proof. intros H Hg. run_start. rewrite H. simpl. by rewrite Hg. Qed.

(** Once the parent is resolved, a span is started with the options that the
    resolution produced, whatever happens later in the handler. *)
Lemma handleStartEvent_starts_span e w parent opts :
  ParentSpanID e = Ok parent ->
  match parent with
  | None => opts = []
  | Some pid =>
      match store_get (Traces (wh w)) pid with
      | Ok (Some p) => opts = [ChildOf (Context p)]
      | Ok None => opts = []
      | Err _ => False
      end
  end ->
  exists sp,
    spans (tracer (handleStartEvent e w).1) = spans (tracer w) ++ [sp] /\
    operation sp = OperationName e /\
    references sp = opts /\
    finishes sp = 0.
Proof.
  intros Hp Hopts.
  assert (forall w1,
    exists sp,
      spans (tracer
        ((span <- StartSpan (OperationName e) opts ;;
          tags <- try (Tags e) ;;
          range (map_to_list tags) (fun k v => SetTag span k v) ;;;
          traceID <- try (TraceID e) ;;
          match traceID with
          | Some tid => _ <- Set_ TracesStore tid span ;; ret tt
          | None => ret tt
          end ;;;
          spanID <- try (SpanID e) ;;
          err <- Set_ SpansStore spanID span ;;
          check err) w1).1) = spans (tracer w1) ++ [sp] /\
      operation sp = OperationName e /\ references sp = opts /\
      finishes sp = 0) as Htail.
  { intros w1. run_start.
    destruct (Tags e) as [tags|] eqn:Ht; simpl.
    - rewrite range_SetTag. simpl. rewrite on_span_new.
      rewrite apply_tags_map. simpl.
      eexists; split; [repeat start_step; reflexivity | done].
    - eexists; split; [reflexivity|done]. }
  unfold handleStartEvent. unfold bind at 1. unfold try at 1. rewrite Hp.
  destruct parent as [pid|].
  - unfold bind at 1. unfold bind at 1. unfold Get at 1.
    destruct (store_get (Traces (wh w)) pid) as [[p|]|] eqn:Hg;
      simpl in *; rewrite ?Hg; try done; subst opts;
      exact (Htail (record_call (CallGet TracesStore pid) w)).
  - subst opts. unfold bind at 1. unfold ret at 1. apply Htail.
Qed.

(** C5: when a Start event names a parent X and the Trace Store holds a span
    under X (a prior Start event registered TraceID = X and the lookup
    returns it), [handleStartEvent] starts exactly one new span, with the
    event's operation name and a child-of reference to the context of the
    span registered under X. *)
Theorem handleStartEvent_child_of_registered (e : Event) (w : World)
    (X : string) (p : span_ref) :
  ParentSpanID e = Ok (Some X) ->
  store_get (Traces (wh w)) X = Ok (Some p) ->
  exists sp,
    spans (tracer (handleStartEvent e w).1) = spans (tracer w) ++ [sp] /\
    operation sp = OperationName e /\
    references sp = [ChildOf (Context p)].
Proof.
  intros Hp Hg.
  destruct (handleStartEvent_starts_span e w (Some X) [ChildOf (Context p)] Hp)
    as (sp & Hs & Ho & Hr & _).
  { by rewrite Hg. }
  by exists sp.
Qed.

Lemma handleStartEvent_child_of_registered_witness :
  ParentSpanID start_s3 = Ok (Some "t2") /\
  store_get (Traces (wh world_s2)) "t2" = Ok (Some 0) /\
  exists sp,
    spans (tracer (handleStartEvent start_s3 world_s2).1) =
      spans (tracer world_s2) ++ [sp] /\
    operation sp = "deploy" /\
    references sp = [ChildOf (Context 0)].
Proof.
  split; [reflexivity|]. split; [reflexivity|].
  apply (handleStartEvent_child_of_registered start_s3 world_s2 "t2" 0);
    reflexivity.
Defined.

(** The calls already made have no influence on what a Start does. *)
Lemma handleStartEvent_record_call e c w :
  (handleStartEvent e (record_call c w)).2 = (handleStartEvent e w).2 /\
  wh (handleStartEvent e (record_call c w)).1 = wh (handleStartEvent e w).1 /\
  tracer (handleStartEvent e (record_call c w)).1 =
    tracer (handleStartEvent e w).1.
Proof. run_start. start_cases; done. Qed.

(** C7: when a Start event names a parent but the Trace Store lookup returns
    nil without error, the absent parent is not a failure: the span is
    started, without a parent reference, and the handler goes on exactly as
    it does for the same event without a parent.  The run is that of the
    parentless event once the lookup is recorded among the calls; so the
    result, the stores and the spans are those of the parentless event. *)
Theorem handleStartEvent_absent_parent_tolerated (e : Event) (w : World)
    (X : string) :
  ParentSpanID e = Ok (Some X) ->
  store_get (Traces (wh w)) X = Ok None ->
  (exists sp,
     spans (tracer (handleStartEvent e w).1) = spans (tracer w) ++ [sp] /\
     operation sp = OperationName e /\
     references sp = []) /\
  handleStartEvent e w =
    handleStartEvent (without_parent e) (record_call (CallGet TracesStore X) w) /\
  (handleStartEvent e w).2 = (handleStartEvent (without_parent e) w).2 /\
  wh (handleStartEvent e w).1 = wh (handleStartEvent (without_parent e) w).1 /\
  tracer (handleStartEvent e w).1 =
    tracer (handleStartEvent (without_parent e) w).1.
Proof.
  intros Hp Hg.
  assert (handleStartEvent e w =
          handleStartEvent (without_parent e)
                           (record_call (CallGet TracesStore X) w)) as Heq.
  { unfold handleStartEvent at 1 2. unfold bind at 1 2. unfold try at 1.
    rewrite Hp. unfold bind at 1. unfold bind at 1. unfold Get at 1.
    change (store_of TracesStore (wh w)) with (Traces (wh w)).
    rewrite Hg. reflexivity. }
  split; [|split; [exact Heq|]].
  - destruct (handleStartEvent_starts_span e w (Some X) [] Hp)
      as (sp & Hs & Ho & Hr & _).
    { by rewrite Hg. }
    by exists sp.
  - rewrite Heq. apply handleStartEvent_record_call.
Qed.

Lemma handleStartEvent_absent_parent_tolerated_witness :
  ParentSpanID start_s4 = Ok (Some "t-late") /\
  store_get (Traces (wh world_s1)) "t-late" = Ok None /\
  (handleStartEvent start_s4 world_s1).2 = Ok tt /\
  (exists sp,
     spans (tracer (handleStartEvent start_s4 world_s1).1) =
       spans (tracer world_s1) ++ [sp] /\
     operation sp = "deploy" /\
     references sp = []) /\
  handleStartEvent start_s4 world_s1 =
    handleStartEvent (without_parent start_s4)
                     (record_call (CallGet TracesStore "t-late") world_s1) /\
  (handleStartEvent start_s4 world_s1).2 =
    (handleStartEvent (without_parent start_s4) world_s1).2 /\
  wh (handleStartEvent start_s4 world_s1).1 =
    wh (handleStartEvent (without_parent start_s4) world_s1).1 /\
  tracer (handleStartEvent start_s4 world_s1).1 =
    tracer (handleStartEvent (without_parent start_s4) world_s1).1.
Proof.
  do 3 (split; [reflexivity|]).
  apply (handleStartEvent_absent_parent_tolerated start_s4 world_s1 "t-late");
    reflexivity.
Defined.

Lemma parent_resolves e w parent :
  ParentSpanID e = Ok parent ->
  (forall pid, parent = Some pid -> get_fault (Traces (wh w)) pid = None) ->
  exists opts,
    match parent with
    | None => opts = []
    | Some pid =>
        match store_get (Traces (wh w)) pid with
        | Ok (Some p) => opts = [ChildOf (Context p)]
        | Ok None => opts = []
        | Err _ => False
        end
    end.
Proof.
  intros _ Hg. destruct parent as [pid|]; [|by exists []].
  unfold store_get. rewrite (Hg pid eq_refl).
  destruct (entries (Traces (wh w)) !! pid) as [p|]; eauto.
Qed.

Lemma tag_calls_no_Set_Finish span kvs :
  Forall (fun c => is_Set c = false /\ is_Finish c = false) (tag_calls span kvs).
Proof. induction kvs as [|[k v] kvs IH]; simpl; by constructor. Qed.

(** C10, under the condition that the code needs: when the parent of a
    Start event is resolved
    ([ParentSpanID] resolves and, if a parent is declared, the Trace Store
    lookup does not fail) and then the [Tags] accessor fails, or [Tags]
    resolves and the [TraceID] accessor fails, [handleStartEvent] returns
    that error with both stores unchanged; but a span was started on the
    tracer, and the handler made no [Set] call and no [Finish] call: the
    span is registered nowhere and is left unfinished. *)
Theorem handleStartEvent_accessor_failure_leaves_span (e : Event) (w : World)
    (parent : option string) (err : error) :
  ParentSpanID e = Ok parent ->
  (forall pid, parent = Some pid -> get_fault (Traces (wh w)) pid = None) ->
  (Tags e = Err err \/ ((exists tags, Tags e = Ok tags) /\ TraceID e = Err err)) ->
  (handleStartEvent e w).2 = Err err /\
  Spans (wh (handleStartEvent e w).1) = Spans (wh w) /\
  Traces (wh (handleStartEvent e w).1) = Traces (wh w) /\
  (exists sp,
     spans (tracer (handleStartEvent e w).1) = spans (tracer w) ++ [sp] /\
     operation sp = OperationName e /\
     finishes sp = 0) /\
  (exists cs,
     calls (handleStartEvent e w).1 = calls w ++ cs /\
     Forall (fun c => is_Set c = false /\ is_Finish c = false) cs).
Proof.
  intros Hp Hg Hfail.
  assert (exists sp,
     spans (tracer (handleStartEvent e w).1) = spans (tracer w) ++ [sp] /\
     operation sp = OperationName e /\ finishes sp = 0) as Hspan.
  { destruct (parent_resolves e w parent Hp Hg) as (opts & Hopts).
    destruct (handleStartEvent_starts_span e w parent opts Hp Hopts)
      as (sp & ? & ? & ? & ?).
    by exists sp. }
  revert Hspan. run_start. rewrite Hp. simpl.
  destruct parent as [pid|]; simpl.
  - rewrite (Hg pid eq_refl). simpl.
    destruct (entries (Traces (wh w)) !! pid) as [p|]; simpl;
      (destruct Hfail as [Ht | ((tags & Ht) & Hid)]; rewrite Ht; simpl;
       [| rewrite range_SetTag; simpl; rewrite Hid; simpl]);
      intros Hspan; repeat split; try done;
      rewrite <- ?app_assoc; eexists; (split; [reflexivity|]);
      repeat (apply Forall_cons; split; [done|]);
      try apply tag_calls_no_Set_Finish; by constructor.
  - destruct Hfail as [Ht | ((tags & Ht) & Hid)]; rewrite Ht; simpl;
      [| rewrite range_SetTag; simpl; rewrite Hid; simpl];
      intros Hspan; repeat split; try done;
      rewrite <- ?app_assoc; eexists; (split; [reflexivity|]);
      repeat (apply Forall_cons; split; [done|]);
      try apply tag_calls_no_Set_Finish; by constructor.
Qed.

Lemma handleStartEvent_accessor_failure_leaves_span_witness :
  let err := ErrorString "tags: malformed payload" in
  ParentSpanID start_untagged = Ok None /\
  Tags start_untagged = Err err /\
  (handleStartEvent start_untagged empty_world).2 = Err err /\
  Spans (wh (handleStartEvent start_untagged empty_world).1) =
    Spans (wh empty_world) /\
  Traces (wh (handleStartEvent start_untagged empty_world).1) =
    Traces (wh empty_world) /\
  (exists sp,
     spans (tracer (handleStartEvent start_untagged empty_world).1) =
       spans (tracer empty_world) ++ [sp] /\
     operation sp = "ticket.process" /\
     finishes sp = 0) /\
  (exists cs,
     calls (handleStartEvent start_untagged empty_world).1 =
       calls empty_world ++ cs /\
     Forall (fun c => is_Set c = false /\ is_Finish c = false) cs).
Proof.
  split; [reflexivity|]. split; [reflexivity|].
  apply (handleStartEvent_accessor_failure_leaves_span start_untagged
           empty_world None (ErrorString "tags: malformed payload")).
  - reflexivity.
  - intros pid H. discriminate H.
  - left. reflexivity.
Defined.

(** C10 without that condition fails: the [Tags] accessor of this Start
    event fails, yet
    [handleStartEvent] returns another error, the one of [ParentSpanID],
    and no span was started. *)
Lemma handleStartEvent_Tags_failure_not_reached :
  Tags start_unreadable = Err (ErrorString "tags: malformed payload") /\
  (handleStartEvent start_unreadable empty_world).2 =
    Err (ErrorString "parent: malformed payload") /\
  (handleStartEvent start_unreadable empty_world).2 <>
    Err (ErrorString "tags: malformed payload") /\
  spans (tracer (handleStartEvent start_unreadable empty_world).1) = [].
Proof.
  split; [reflexivity|]. split; [reflexivity|]. split; [|reflexivity].
  simpl. discriminate.
Qed.

(** What a successful Start leaves in the stores: the new span under the
    event's SpanID in the Span Store, and under the declared TraceID in the
    Trace Store provided that store's [Set] did not fail. *)
Lemma handleStartEvent_registers e w :
  (handleStartEvent e w).2 = Ok tt ->
  exists sid,
    SpanID e = Ok sid /\
    entries (Spans (wh (handleStartEvent e w).1)) !! sid =
      Some (length (spans (tracer w))) /\
    forall tid,
      TraceID e = Ok (Some tid) ->
      set_fault (Traces (wh w)) tid = None ->
      entries (Traces (wh (handleStartEvent e w).1)) !! tid =
        Some (length (spans (tracer w))).
Proof.
  run_start. start_cases; intros Hok; try discriminate Hok;
    eexists; (split; [reflexivity|]);
    (split; [apply lookup_insert_eq|]);
    intros tid' [= <-] Hf; try congruence; apply lookup_insert_eq.
Qed.

(** A failing Trace Store [Set] changes nothing in the Trace Store. *)
Lemma handleStartEvent_Traces_Set_fault e w tid err :
  TraceID e = Ok (Some tid) ->
  set_fault (Traces (wh w)) tid = Some err ->
  Traces (wh (handleStartEvent e w).1) = Traces (wh w).
Proof.
  intros Ht Hf. run_start. rewrite Ht.
  start_cases; try reflexivity; congruence.
Qed.

(** Every error that [handleStartEvent] returns comes from an event
    accessor, from the parent lookup or from the Span Store [Set]; the
    error of the Trace Store [Set] is not among them. *)
Lemma handleStartEvent_error_source e w err :
  (handleStartEvent e w).2 = Err err ->
  ParentSpanID e = Err err \/
  (exists pid, ParentSpanID e = Ok (Some pid) /\
               get_fault (Traces (wh w)) pid = Some err) \/
  Tags e = Err err \/
  TraceID e = Err err \/
  SpanID e = Err err \/
  (exists sid, SpanID e = Ok sid /\ set_fault (Spans (wh w)) sid = Some err).
Proof.
  run_start. start_cases; intros [= <-]; eauto 10.
Qed.

(** C2, at the step where the code departs from it: when the Trace Store
    [Set] of a Start event fails and nothing else does, the handler calls
    that [Set], gets its error back, and still returns no error. *)
Theorem handleStartEvent_drops_Traces_Set_error (e : Event) (w : World)
    (parent : option string) (tags : gmap string tag_value)
    (tid sid : string) (err : error) :
  ParentSpanID e = Ok parent ->
  (forall pid, parent = Some pid -> get_fault (Traces (wh w)) pid = None) ->
  Tags e = Ok tags ->
  TraceID e = Ok (Some tid) ->
  SpanID e = Ok sid ->
  set_fault (Traces (wh w)) tid = Some err ->
  set_fault (Spans (wh w)) sid = None ->
  (store_set (Traces (wh w)) tid (length (spans (tracer w)))).2 = Some err /\
  CallSet TracesStore tid (length (spans (tracer w)))
    ∈ calls (handleStartEvent e w).1 /\
  (handleStartEvent e w).2 = Ok tt.
Proof.
  intros Hp Hg Htags Htid Hsid Hft Hfs. run_start. rewrite Hp. simpl.
  destruct parent as [pid|]; simpl.
  - rewrite (Hg pid eq_refl). simpl.
    destruct (entries (Traces (wh w)) !! pid) as [p|]; simpl;
      rewrite Htags; simpl; rewrite range_SetTag; simpl;
      rewrite Htid; simpl; rewrite Hft; simpl; rewrite Hsid; simpl;
      rewrite Hfs; simpl; repeat split;
      rewrite !elem_of_app; left; right; by apply list_elem_of_singleton.
  - rewrite Htags. simpl. rewrite range_SetTag. simpl.
    rewrite Htid. simpl. rewrite Hft. simpl. rewrite Hsid. simpl.
    rewrite Hfs. simpl. repeat split.
    rewrite !elem_of_app. left. right. by apply list_elem_of_singleton.
Qed.

Lemma handleStartEvent_drops_Traces_Set_error_witness :
  let w := world_traces_set_fails in
  ParentSpanID start_s1 = Ok None /\
  Tags start_s1 = Ok (<["source" := VString "tickets"]> ∅) /\
  TraceID start_s1 = Ok (Some "t1") /\
  SpanID start_s1 = Ok "s1" /\
  set_fault (Traces (wh w)) "t1" = Some (ErrorString "store unavailable") /\
  set_fault (Spans (wh w)) "s1" = None /\
  (store_set (Traces (wh w)) "t1" 0).2 = Some (ErrorString "store unavailable") /\
  CallSet TracesStore "t1" 0 ∈ calls (handleStartEvent start_s1 w).1 /\
  (handleStartEvent start_s1 w).2 = Ok tt.
Proof.
  do 6 (split; [reflexivity|]).
  apply (handleStartEvent_drops_Traces_Set_error start_s1
           world_traces_set_fails None (<["source" := VString "tickets"]> ∅)
           "t1" "s1" (ErrorString "store unavailable")); reflexivity.
Defined.

(** C3, at the input where the code departs from it: a Start event declares
    a TraceID, the Trace Store [Set] fails, and [handleStartEvent] returns
    successfully; the Span Store holds the new span under the SpanID, but
    the Trace Store holds no entry for the TraceID. *)
Theorem handleStartEvent_success_without_trace_entry (e : Event) (w : World)
    (tid : string) (err : error) :
  TraceID e = Ok (Some tid) ->
  set_fault (Traces (wh w)) tid = Some err ->
  entries (Traces (wh w)) !! tid = None ->
  (handleStartEvent e w).2 = Ok tt ->
  (exists sid,
     SpanID e = Ok sid /\
     entries (Spans (wh (handleStartEvent e w).1)) !! sid =
       Some (length (spans (tracer w)))) /\
  entries (Traces (wh (handleStartEvent e w).1)) !! tid = None.
Proof.
  intros Htid Hf Hnone Hok. split.
  - destruct (handleStartEvent_registers e w Hok) as (sid & Hs & Hin & _).
    by exists sid.
  - by rewrite (handleStartEvent_Traces_Set_fault e w tid err Htid Hf).
Qed.

Lemma handleStartEvent_success_without_trace_entry_witness :
  let w := world_traces_set_fails in
  TraceID start_s1 = Ok (Some "t1") /\
  set_fault (Traces (wh w)) "t1" = Some (ErrorString "store unavailable") /\
  entries (Traces (wh w)) !! "t1" = None /\
  (handleStartEvent start_s1 w).2 = Ok tt /\
  (exists sid,
     SpanID start_s1 = Ok sid /\
     entries (Spans (wh (handleStartEvent start_s1 w).1)) !! sid = Some 0) /\
  entries (Traces (wh (handleStartEvent start_s1 w).1)) !! "t1" = None.
Proof.
  do 4 (split; [reflexivity|]).
  apply (handleStartEvent_success_without_trace_entry start_s1
           world_traces_set_fails "t1" (ErrorString "store unavailable"));
    reflexivity.
Defined.

(** The scenario of section 8: Start s1/t1, then End s1/t1, leaves both
    stores empty and the span finished once with [error = false]. *)
Example scenario_start_then_end :
  (handleEvent start_s1 empty_world).2 = Ok tt /\
  entries (Spans (wh world_s1)) = holding "s1" /\
  entries (Traces (wh world_s1)) = holding "t1" /\
  (handleEvent end_s1 world_s1).2 = Ok tt /\
  entries (Spans (wh (handleEvent end_s1 world_s1).1)) = ∅ /\
  entries (Traces (wh (handleEvent end_s1 world_s1).1)) = ∅ /\
  spans (tracer (handleEvent end_s1 world_s1).1) =
    [mkSpanData "ticket.process" []
       (<["error" := VBool false]> (<["source" := VString "tickets"]> ∅)) 1].
Proof. repeat split; vm_compute; reflexivity. Qed.

(** The other failures of start handling are returned as they are. *)
Lemma handleStartEvent_SpanID_or_Set_error e w parent tags trace err :
  ParentSpanID e = Ok parent ->
  (forall pid, parent = Some pid -> get_fault (Traces (wh w)) pid = None) ->
  Tags e = Ok tags ->
  TraceID e = Ok trace ->
  (SpanID e = Err err \/
   exists sid, SpanID e = Ok sid /\ set_fault (Spans (wh w)) sid = Some err) ->
  (handleStartEvent e w).2 = Err err.
Proof.
  intros Hp Hg Htags Htid Hfail. run_start. rewrite Hp. simpl.
  destruct parent as [pid|]; simpl;
    [rewrite (Hg pid eq_refl); simpl;
     destruct (entries (Traces (wh w)) !! pid) as [p|]; simpl|];
    rewrite Htags; simpl; rewrite range_SetTag; simpl; rewrite Htid; simpl;
    (destruct trace as [tid|]; simpl;
     [destruct (set_fault (Traces (wh w)) tid); simpl|]);
    (destruct Hfail as [Hf | (sid & Hf & Hset)]; rewrite Hf; simpl;
     [done | by rewrite Hset]).
Qed.

Lemma handleStartEvent_keeps_faults e w :
  get_fault (Traces (wh (handleStartEvent e w).1)) = get_fault (Traces (wh w)).
Proof. run_start. start_cases; reflexivity. Qed.

(** A Start event that registers TraceID = X, followed by a Start event that
    names X as its parent: the second span is a child of the first. *)
Lemma handleStartEvent_then_child e1 e2 w X :
  TraceID e1 = Ok (Some X) ->
  (handleStartEvent e1 w).2 = Ok tt ->
  set_fault (Traces (wh w)) X = None ->
  get_fault (Traces (wh w)) X = None ->
  ParentSpanID e2 = Ok (Some X) ->
  exists sp,
    spans (tracer (handleStartEvent e2 (handleStartEvent e1 w).1).1) =
      spans (tracer (handleStartEvent e1 w).1) ++ [sp] /\
    operation sp = OperationName e2 /\
    references sp = [ChildOf (Context (length (spans (tracer w))))].
Proof.
  intros Htid Hok Hset Hget Hp.
  destruct (handleStartEvent_registers e1 w Hok) as (sid & _ & _ & Hreg).
  specialize (Hreg X Htid Hset).
  destruct (handleStartEvent_starts_span e2 (handleStartEvent e1 w).1 (Some X)
              [ChildOf (Context (length (spans (tracer w))))] Hp)
    as (sp & Hs & Ho & Hr & _).
  { unfold store_get. rewrite handleStartEvent_keeps_faults, Hget, Hreg. done. }
  by exists sp.
Qed.

(** ** Closed forms of the two handlers *)

Ltac run_end :=
  unfold handleEndEvent, bind, try, fail, check, ret, Get, Delete, SetTag,
    Finish, store_get, store_delete, record_call;
  simpl.

Ltac end_cases :=
  repeat
    (match goal with
     | |- context [match SpanID ?e with _ => _ end] =>
         destruct (SpanID e) eqn:?
     | |- context [match get_fault ?s ?k with _ => _ end] =>
         destruct (get_fault s k) eqn:?
     | |- context [match entries ?s !! ?k with _ => _ end] =>
         destruct (entries s !! k) eqn:?
     | |- context [match IsError ?e with _ => _ end] =>
         destruct (IsError e) eqn:?
     | |- context [match delete_fault ?s ?k with _ => _ end] =>
         destruct (delete_fault s k) eqn:?
     | |- context [match TraceID ?e with _ => _ end] =>
         destruct (TraceID e) as [[?|]|] eqn:?
     end; simpl).

(** Start handling when nothing fails: the result and what is left in the
    tracer and in the two stores. *)
Lemma start_success e w opts tags trace sid :
  resolved_parent e w opts ->
  Tags e = Ok tags ->
  TraceID e = Ok trace ->
  (forall tid, trace = Some tid -> set_fault (Traces (wh w)) tid = None) ->
  SpanID e = Ok sid ->
  set_fault (Spans (wh w)) sid = None ->
  (handleStartEvent e w).2 = Ok tt /\
  tracer (handleStartEvent e w).1 =
    mkTracer (spans (tracer w) ++ [mkSpanData (OperationName e) opts tags 0]) /\
  entries (Spans (wh (handleStartEvent e w).1)) =
    <[sid := length (spans (tracer w))]> (entries (Spans (wh w))) /\
  entries (Traces (wh (handleStartEvent e w).1)) =
    match trace with
    | Some tid => <[tid := length (spans (tracer w))]> (entries (Traces (wh w)))
    | None => entries (Traces (wh w))
    end.
Proof.
  unfold resolved_parent, store_get. intros Hp Htags Htid Hft Hsid Hfs.
  run_start.
  destruct (ParentSpanID e) as [[pid|]|]; simpl in *; try done;
    [destruct (get_fault (Traces (wh w)) pid); simpl in *; try done;
     destruct (entries (Traces (wh w)) !! pid); simpl in *|];
    subst opts;
    rewrite Htags; simpl; rewrite range_SetTag; simpl; rewrite on_span_new;
    rewrite apply_tags_map; simpl; rewrite (right_id_L ∅ (∪));
    rewrite Htid; simpl;
    (destruct trace as [tid|]; simpl;
     [rewrite (Hft tid eq_refl); simpl|]);
    rewrite Hsid; simpl; rewrite Hfs; simpl; done.
Qed.

(** The handlers leave the stores' ways of failing as they are. *)
Lemma store_set_faults s id span :
  get_fault (store_set s id span).1 = get_fault s /\
  set_fault (store_set s id span).1 = set_fault s /\
  delete_fault (store_set s id span).1 = delete_fault s.
Proof. unfold store_set. by destruct (set_fault s id). Qed.

Lemma store_delete_faults s id :
  get_fault (store_delete s id).1 = get_fault s /\
  set_fault (store_delete s id).1 = set_fault s /\
  delete_fault (store_delete s id).1 = delete_fault s.
Proof. unfold store_delete. by destruct (delete_fault s id). Qed.

Lemma handleStartEvent_faults e w n :
  get_fault (store_of n (wh (handleStartEvent e w).1)) =
    get_fault (store_of n (wh w)) /\
  set_fault (store_of n (wh (handleStartEvent e w).1)) =
    set_fault (store_of n (wh w)) /\
  delete_fault (store_of n (wh (handleStartEvent e w).1)) =
    delete_fault (store_of n (wh w)).
Proof. run_start. destruct n; start_cases; done. Qed.

Lemma handleEndEvent_faults e w n :
  get_fault (store_of n (wh (handleEndEvent e w).1)) =
    get_fault (store_of n (wh w)) /\
  set_fault (store_of n (wh (handleEndEvent e w).1)) =
    set_fault (store_of n (wh w)) /\
  delete_fault (store_of n (wh (handleEndEvent e w).1)) =
    delete_fault (store_of n (wh w)).
Proof. run_end. destruct n; end_cases; done. Qed.

(** End handling when nothing fails. *)
Lemma end_success e w sid h b trace :
  SpanID e = Ok sid ->
  store_get (Spans (wh w)) sid = Ok (Some h) ->
  IsError e = Ok b ->
  delete_fault (Spans (wh w)) sid = None ->
  TraceID e = Ok trace ->
  (forall tid, trace = Some tid -> delete_fault (Traces (wh w)) tid = None) ->
  (handleEndEvent e w).2 = Ok tt /\
  tracer (handleEndEvent e w).1 =
    on_span finish h (on_span (set_tag "error" (VBool b)) h (tracer w)) /\
  entries (Spans (wh (handleEndEvent e w).1)) =
    delete sid (entries (Spans (wh w))) /\
  entries (Traces (wh (handleEndEvent e w).1)) =
    match trace with
    | Some tid => delete tid (entries (Traces (wh w)))
    | None => entries (Traces (wh w))
    end.
Proof.
  intros Hsid Hget Hise Hds Htid Hdt.
  unfold store_get in Hget.
  destruct (get_fault (Spans (wh w)) sid) eqn:Hgf; [done|].
  injection Hget as Hget.
  run_end. rewrite Hsid. simpl. rewrite Hgf, Hget. simpl.
  rewrite Hise. simpl. rewrite Hds. simpl. rewrite Htid. simpl.
  destruct trace as [tid|]; simpl; [rewrite (Hdt tid eq_refl); simpl|]; done.
Qed.

(** End handling when the span is not in the Span Store. *)
Lemma end_missing e w sid :
  SpanID e = Ok sid ->
  store_get (Spans (wh w)) sid = Ok None ->
  handleEndEvent e w =
    (record_call (CallGet SpansStore sid) w,
     Err (SpanMissingError (Errorf "span not found for span: %q" [sid]))).
Proof.
  intros Hsid Hget. unfold handleEndEvent, bind, try, fail, Get.
  rewrite Hsid. simpl. by rewrite Hget.
Qed.

Lemma store_ext (s1 s2 : SpanStore) :
  entries s1 = entries s2 ->
  get_fault s1 = get_fault s2 ->
  set_fault s1 = set_fault s2 ->
  delete_fault s1 = delete_fault s2 ->
  s1 = s2.
Proof. destruct s1, s2; simpl; intros; by subst. Qed.

(** ** How Start and End compose *)

(** A Start followed by the End of the same unit of work (same SpanID, same
    TraceID), on stores that do not fail and did not hold these keys: both
    calls succeed, both stores are back to what they were, and the tracer
    has one more span, finished once, carrying the Start event's tags with
    [error] set from the End event on top. *)
Theorem start_then_end_restores_stores (e1 e2 : Event) (w : World)
    (opts : list StartSpanOption) (tags : gmap string tag_value)
    (trace : option string) (sid : string) (b : bool) :
  resolved_parent e1 w opts ->
  Tags e1 = Ok tags ->
  TraceID e1 = Ok trace ->
  SpanID e1 = Ok sid ->
  SpanID e2 = Ok sid ->
  TraceID e2 = Ok trace ->
  IsError e2 = Ok b ->
  set_fault (Spans (wh w)) sid = None ->
  get_fault (Spans (wh w)) sid = None ->
  delete_fault (Spans (wh w)) sid = None ->
  (forall tid, trace = Some tid ->
     set_fault (Traces (wh w)) tid = None /\
     delete_fault (Traces (wh w)) tid = None) ->
  entries (Spans (wh w)) !! sid = None ->
  (forall tid, trace = Some tid -> entries (Traces (wh w)) !! tid = None) ->
  (handleStartEvent e1 w).2 = Ok tt /\
  (handleEndEvent e2 (handleStartEvent e1 w).1).2 = Ok tt /\
  Spans (wh (handleEndEvent e2 (handleStartEvent e1 w).1).1) = Spans (wh w) /\
  Traces (wh (handleEndEvent e2 (handleStartEvent e1 w).1).1) = Traces (wh w) /\
  spans (tracer (handleEndEvent e2 (handleStartEvent e1 w).1).1) =
    spans (tracer w) ++
    [mkSpanData (OperationName e1) opts (<["error" := VBool b]> tags) 1].
Proof.
  intros Hp Htags Htid1 Hsid1 Hsid2 Htid2 Hise Hfs Hfg Hfd Hft Hs Ht.
  destruct (start_success e1 w opts tags trace sid Hp Htags Htid1
              (fun tid H => proj1 (Hft tid H)) Hsid1 Hfs)
    as (Hok1 & Htr1 & Hsp1 & Htc1).
  pose proof (handleStartEvent_faults e1 w SpansStore) as (Hg1 & _ & Hd1).
  pose proof (handleStartEvent_faults e1 w TracesStore) as (_ & _ & Hdt1).
  simpl in Hg1, Hd1, Hdt1.
  destruct (end_success e2 (handleStartEvent e1 w).1 sid
              (length (spans (tracer w))) b trace Hsid2)
    as (Hok2 & Htr2 & Hsp2 & Htc2); try done.
  { unfold store_get. rewrite Hg1, Hfg, Hsp1, lookup_insert_eq. done. }
  { by rewrite Hd1. }
  { intros tid H. rewrite Hdt1. by apply Hft. }
  pose proof (handleEndEvent_faults e2 (handleStartEvent e1 w).1 SpansStore)
    as (Hg2 & Hs2 & Hd2).
  pose proof (handleEndEvent_faults e2 (handleStartEvent e1 w).1 TracesStore)
    as (Hgt2 & Hst2 & Hdt2).
  pose proof (handleStartEvent_faults e1 w SpansStore) as (_ & Hs1 & _).
  pose proof (handleStartEvent_faults e1 w TracesStore) as (Hgt1 & Hst1 & _).
  simpl in *.
  split; [done|]. split; [done|]. split; [|split].
  - apply store_ext; try congruence.
    rewrite Hsp2, Hsp1. by apply delete_insert_id.
  - apply store_ext; try congruence.
    rewrite Htc2, Htc1. destruct trace as [tid|]; [|done].
    apply delete_insert_id. by apply Ht.
  - rewrite Htr2, Htr1, on_span_compose, on_span_new. done.
Qed.

Lemma start_then_end_restores_stores_witness :
  resolved_parent start_s1 empty_world [] /\
  entries (Spans (wh empty_world)) !! "s1" = None /\
  (handleStartEvent start_s1 empty_world).2 = Ok tt /\
  (handleEndEvent end_s1 (handleStartEvent start_s1 empty_world).1).2 = Ok tt /\
  Spans (wh (handleEndEvent end_s1 (handleStartEvent start_s1 empty_world).1).1)
    = Spans (wh empty_world) /\
  Traces (wh (handleEndEvent end_s1 (handleStartEvent start_s1 empty_world).1).1)
    = Traces (wh empty_world) /\
  spans (tracer (handleEndEvent end_s1
                   (handleStartEvent start_s1 empty_world).1).1) =
    spans (tracer empty_world) ++
    [mkSpanData "ticket.process" []
       (<["error" := VBool false]> (<["source" := VString "tickets"]> ∅)) 1].
Proof.
  split; [reflexivity|]. split; [reflexivity|].
  apply (start_then_end_restores_stores start_s1 end_s1 empty_world []
           (<["source" := VString "tickets"]> ∅) (Some "t1") "s1" false);
    try reflexivity.
  intros tid _. split; reflexivity.
Defined.

(** An End event delivered a second time is refused: after a successful
    End, the same event fails with the span-missing error, changes neither
    store nor any span, and so the span stays finished exactly once. *)
Theorem end_twice_span_missing (e : Event) (w : World) (sid : string)
    (h : span_ref) (sp : SpanData) (b : bool) (trace : option string) :
  SpanID e = Ok sid ->
  store_get (Spans (wh w)) sid = Ok (Some h) ->
  spans (tracer w) !! h = Some sp ->
  IsError e = Ok b ->
  TraceID e = Ok trace ->
  delete_fault (Spans (wh w)) sid = None ->
  (forall tid, trace = Some tid -> delete_fault (Traces (wh w)) tid = None) ->
  (handleEndEvent e w).2 = Ok tt /\
  (handleEndEvent e (handleEndEvent e w).1).2 =
    Err (SpanMissingError (Errorf "span not found for span: %q" [sid])) /\
  wh (handleEndEvent e (handleEndEvent e w).1).1 = wh (handleEndEvent e w).1 /\
  tracer (handleEndEvent e (handleEndEvent e w).1).1 =
    tracer (handleEndEvent e w).1 /\
  finishes <$> spans (tracer (handleEndEvent e (handleEndEvent e w).1).1) !! h
    = Some (S (finishes sp)).
Proof.
  intros Hsid Hget Hsp Hise Htid Hds Hdt.
  destruct (end_success e w sid h b trace Hsid Hget Hise Hds Htid Hdt)
    as (Hok & Htr & Hse & _).
  pose proof (handleEndEvent_faults e w SpansStore) as (Hg & _ & _).
  simpl in Hg.
  assert (store_get (Spans (wh (handleEndEvent e w).1)) sid = Ok None) as Hgone.
  { unfold store_get in *. rewrite Hg.
    destruct (get_fault (Spans (wh w)) sid); [done|].
    by rewrite Hse, lookup_delete_eq. }
  rewrite (end_missing e _ sid Hsid Hgone). simpl.
  repeat split; try done.
  rewrite Htr, (lookup_tagged_finished _ _ sp); done.
Qed.

Lemma end_twice_span_missing_witness :
  SpanID end_s1 = Ok "s1" /\
  store_get (Spans (wh world_s1)) "s1" = Ok (Some 0) /\
  spans (tracer world_s1) !! 0 = Some span_s1 /\
  (handleEndEvent end_s1 world_s1).2 = Ok tt /\
  (handleEndEvent end_s1 (handleEndEvent end_s1 world_s1).1).2 =
    Err (SpanMissingError (Errorf "span not found for span: %q" ["s1"])) /\
  wh (handleEndEvent end_s1 (handleEndEvent end_s1 world_s1).1).1 =
    wh (handleEndEvent end_s1 world_s1).1 /\
  tracer (handleEndEvent end_s1 (handleEndEvent end_s1 world_s1).1).1 =
    tracer (handleEndEvent end_s1 world_s1).1 /\
  finishes <$>
    spans (tracer (handleEndEvent end_s1 (handleEndEvent end_s1 world_s1).1).1)
      !! 0 = Some 1.
Proof.
  do 3 (split; [reflexivity|]).
  apply (end_twice_span_missing end_s1 world_s1 "s1" 0 span_s1 false
           (Some "t1")); reflexivity.
Defined.

(** ** What the handlers leave alone *)

Lemma start_spans_shape e w :
  spans (tracer (handleStartEvent e w).1) = spans (tracer w) \/
  exists sp,
    spans (tracer (handleStartEvent e w).1) = spans (tracer w) ++ [sp] /\
    operation sp = OperationName e /\
    finishes sp = 0.
Proof.
  destruct (ParentSpanID e) as [parent|err] eqn:Hp.
  - destruct parent as [pid|].
    + destruct (store_get (Traces (wh w)) pid) as [[p|]|err] eqn:Hg.
      * right.
        destruct (handleStartEvent_starts_span e w (Some pid)
                    [ChildOf (Context p)] Hp) as (sp & ? & ? & ? & ?);
          [by rewrite Hg | by exists sp].
      * right.
        destruct (handleStartEvent_starts_span e w (Some pid) [] Hp)
          as (sp & ? & ? & ? & ?); [by rewrite Hg | by exists sp].
      * left. unfold store_get in Hg.
        destruct (get_fault (Traces (wh w)) pid) eqn:Hf; [|done].
        by rewrite (handleStartEvent_parent_lookup_error e w pid e0 Hp Hf).
    + right.
      destruct (handleStartEvent_starts_span e w None [] Hp)
        as (sp & ? & ? & ? & ?); [done | by exists sp].
  - left. by rewrite (handleStartEvent_ParentSpanID_error e w err Hp).
Qed.

Lemma start_ok_spans e w :
  (handleStartEvent e w).2 = Ok tt ->
  exists sp,
    spans (tracer (handleStartEvent e w).1) = spans (tracer w) ++ [sp] /\
    operation sp = OperationName e /\
    finishes sp = 0.
Proof.
  intros Hok.
  destruct (ParentSpanID e) as [parent|err] eqn:Hp.
  - destruct parent as [pid|].
    + destruct (store_get (Traces (wh w)) pid) as [[p|]|err] eqn:Hg.
      * destruct (handleStartEvent_starts_span e w (Some pid)
                    [ChildOf (Context p)] Hp) as (sp & ? & ? & ? & ?);
          [by rewrite Hg | by exists sp].
      * destruct (handleStartEvent_starts_span e w (Some pid) [] Hp)
          as (sp & ? & ? & ? & ?); [by rewrite Hg | by exists sp].
      * unfold store_get in Hg.
        destruct (get_fault (Traces (wh w)) pid) eqn:Hf; [|done].
        by rewrite (handleStartEvent_parent_lookup_error e w pid e0 Hp Hf)
          in Hok.
    + destruct (handleStartEvent_starts_span e w None [] Hp)
        as (sp & ? & ? & ? & ?); [done | by exists sp].
  - by rewrite (handleStartEvent_ParentSpanID_error e w err Hp) in Hok.
Qed.

Lemma tag_calls_no_Delete_Finish span kvs :
  Forall (fun c => is_Delete c = false /\ is_Finish c = false)
         (tag_calls span kvs).
Proof. induction kvs as [|[k v] kvs IH]; simpl; by constructor. Qed.

(** Start handling only adds: the spans that existed are untouched and at
    most one span, unfinished, is appended; no key leaves either store; and
    among the calls made there is no [Delete] and no [Finish]. *)
Theorem handleStartEvent_only_adds (e : Event) (w : World) :
  (spans (tracer (handleStartEvent e w).1) = spans (tracer w) \/
   exists sp,
     spans (tracer (handleStartEvent e w).1) = spans (tracer w) ++ [sp] /\
     finishes sp = 0) /\
  (forall n k, is_Some (entries (store_of n (wh w)) !! k) ->
     is_Some (entries (store_of n (wh (handleStartEvent e w).1)) !! k)) /\
  exists cs,
    calls (handleStartEvent e w).1 = calls w ++ cs /\
    Forall (fun c => is_Delete c = false /\ is_Finish c = false) cs.
Proof.
  split; [|split].
  - destruct (start_spans_shape e w) as [H | (sp & H & _ & Hf)]; eauto.
  - intros n k. run_start.
    destruct n; start_cases; try done;
      intros Hin; rewrite lookup_insert; by case_decide.
  - run_start.
    start_cases; rewrite <- ?app_assoc;
      first
        [ exists []; split; [by rewrite app_nil_r | by constructor]
        | eexists; (split; [reflexivity|]);
          repeat first
            [ exact I
            | apply Forall_nil
            | apply tag_calls_no_Delete_Finish
            | apply Forall_cons; split; [done|]
            | apply Forall_app; split ] ].
Qed.

Lemma handleEndEvent_only_closes_spans e w i :
  (forall sid, SpanID e = Ok sid -> entries (Spans (wh w)) !! sid <> Some i) ->
  spans (tracer (handleEndEvent e w).1) !! i = spans (tracer w) !! i.
Proof.
  intros Hi. revert Hi. run_end.
  end_cases; intros Hi; try done;
    (rewrite !list_lookup_alter_ne; [done | |]; intros ->; by eapply Hi).
Qed.

(** End handling only closes: no span is added, the only span that can
    change is the one the Span Store holds under the event's SpanID, no key
    enters either store, and among the calls made there is no [Set] and no
    [StartSpan]. *)
Theorem handleEndEvent_only_closes (e : Event) (w : World) :
  length (spans (tracer (handleEndEvent e w).1)) = length (spans (tracer w)) /\
  (forall i,
     (forall sid, SpanID e = Ok sid -> entries (Spans (wh w)) !! sid <> Some i) ->
     spans (tracer (handleEndEvent e w).1) !! i = spans (tracer w) !! i) /\
  (forall n k, entries (store_of n (wh w)) !! k = None ->
     entries (store_of n (wh (handleEndEvent e w).1)) !! k = None) /\
  exists cs,
    calls (handleEndEvent e w).1 = calls w ++ cs /\
    Forall (fun c => is_Set c = false /\ is_StartSpan c = false) cs.
Proof.
  split; [|split; [|split]].
  - run_end. end_cases; rewrite ?length_alter; done.
  - intros i Hi. revert Hi. run_end.
    end_cases; intros Hi; try done;
      (rewrite !list_lookup_alter_ne; [done | |]; intros ->;
       by eapply Hi).
  - intros n k. run_end.
    destruct n; end_cases; try done;
      intros Hout; rewrite lookup_delete; by case_decide.
  - run_end.
    end_cases; rewrite <- ?app_assoc;
      first
        [ exists []; split; [by rewrite app_nil_r | by constructor]
        | eexists; (split; [reflexivity|]);
          repeat first
            [ exact I
            | apply Forall_nil
            | apply Forall_cons; split; [done|] ] ].
Qed.



(** ** Duplicate Start *)

(** Start handling never looks at the Span Store before writing to it.  When
    two Start events with the same SpanID are both handled successfully,
    the Span Store ends up holding the second span under that SpanID; the
    first span is still in the tracer, unfinished, and a following End
    event for the SpanID leaves it so. *)
Theorem start_twice_orphans_first_span (e1 e2 e3 : Event) (w : World)
    (sid : string) :
  SpanID e1 = Ok sid ->
  SpanID e2 = Ok sid ->
  SpanID e3 = Ok sid ->
  (handleStartEvent e1 w).2 = Ok tt ->
  (handleStartEvent e2 (handleStartEvent e1 w).1).2 = Ok tt ->
  entries (Spans (wh (handleStartEvent e2 (handleStartEvent e1 w).1).1)) !! sid
    = Some (S (length (spans (tracer w)))) /\
  exists sp1 sp2,
    spans (tracer (handleStartEvent e2 (handleStartEvent e1 w).1).1) =
      spans (tracer w) ++ [sp1; sp2] /\
    finishes sp1 = 0 /\
    spans (tracer (handleEndEvent e3
                     (handleStartEvent e2 (handleStartEvent e1 w).1).1).1)
      !! length (spans (tracer w)) = Some sp1.
Proof.
  intros Hs1 Hs2 Hs3 Hok1 Hok2.
  destruct (start_ok_spans e1 w Hok1) as (sp1 & Hsp1 & _ & Hf1).
  destruct (start_ok_spans e2 _ Hok2) as (sp2 & Hsp2 & _ & _).
  destruct (handleStartEvent_registers e2 _ Hok2) as (sid' & Hs2' & Hreg & _).
  assert (sid' = sid) as -> by congruence.
  rewrite Hsp1, length_app in Hreg. simpl in Hreg.
  replace (length (spans (tracer w)) + 1) with (S (length (spans (tracer w))))
    in Hreg by lia.
  split; [done|].
  exists sp1, sp2. rewrite Hsp2, Hsp1, <- app_assoc. split; [done|].
  split; [done|].
  rewrite handleEndEvent_only_closes_spans.
  - rewrite Hsp2, Hsp1, <- app_assoc.
    rewrite lookup_app_r by lia.
    by replace (length (spans (tracer w)) - length (spans (tracer w)))
      with 0 by lia.
  - intros sid3 Hs3'. assert (sid3 = sid) as -> by congruence.
    rewrite Hreg. intros [= H]. lia.
Qed.

Lemma start_twice_orphans_first_span_witness :
  SpanID start_s1 = Ok "s1" /\
  SpanID end_s1 = Ok "s1" /\
  (handleStartEvent start_s1 empty_world).2 = Ok tt /\
  (handleStartEvent start_s1 world_s1).2 = Ok tt /\
  entries (Spans (wh (handleStartEvent start_s1 world_s1).1)) !! "s1" = Some 1 /\
  exists sp1 sp2,
    spans (tracer (handleStartEvent start_s1 world_s1).1) = [sp1; sp2] /\
    finishes sp1 = 0 /\
    spans (tracer (handleEndEvent end_s1
                     (handleStartEvent start_s1 world_s1).1).1) !! 0 = Some sp1.
Proof.
  do 4 (split; [reflexivity|]).
  apply (start_twice_orphans_first_span start_s1 start_s1 end_s1 empty_world
           "s1"); reflexivity.
Defined.

(** ** Start handling: success and partial failure *)





Lemma handleStartEvent_error_source_witness :
  (handleStartEvent start_unreadable empty_world).2 =
    Err (ErrorString "parent: malformed payload") /\
  (ParentSpanID start_unreadable = Err (ErrorString "parent: malformed payload") \/
   (exists pid, ParentSpanID start_unreadable = Ok (Some pid) /\
                get_fault (Traces (wh empty_world)) pid =
                  Some (ErrorString "parent: malformed payload")) \/
   Tags start_unreadable = Err (ErrorString "parent: malformed payload") \/
   TraceID start_unreadable = Err (ErrorString "parent: malformed payload") \/
   SpanID start_unreadable = Err (ErrorString "parent: malformed payload") \/
   (exists sid, SpanID start_unreadable = Ok sid /\
                set_fault (Spans (wh empty_world)) sid =
                  Some (ErrorString "parent: malformed payload"))).
Proof.
  split; [reflexivity|].
  apply (handleStartEvent_error_source start_unreadable empty_world).
  reflexivity.
Defined.

Lemma handleStartEvent_then_child_witness :
  TraceID start_s2 = Ok (Some "t2") /\
  (handleStartEvent start_s2 empty_world).2 = Ok tt /\
  ParentSpanID start_s3 = Ok (Some "t2") /\
  exists sp,
    spans (tracer (handleStartEvent start_s3
                     (handleStartEvent start_s2 empty_world).1).1) =
      spans (tracer (handleStartEvent start_s2 empty_world).1) ++ [sp] /\
    operation sp = OperationName start_s3 /\
    references sp = [ChildOf (Context (length (spans (tracer empty_world))))].
Proof.
  do 3 (split; [reflexivity|]).
  apply (handleStartEvent_then_child start_s2 start_s3 empty_world "t2");
    reflexivity.
Defined.

(** ** End handling: where its errors come from *)

(** Every error that [handleEndEvent] returns is the error of the [SpanID],
    [IsError] or [TraceID] accessor, of the Span Store lookup or delete, of
    the Trace Store delete, or the span-missing error built for a lookup
    that found nothing. *)
Theorem handleEndEvent_error_source (e : Event) (w : World) (err : error) :
  (handleEndEvent e w).2 = Err err ->
  SpanID e = Err err \/
  (exists sid,
     SpanID e = Ok sid /\
     (get_fault (Spans (wh w)) sid = Some err \/
      (store_get (Spans (wh w)) sid = Ok None /\
       err = SpanMissingError (Errorf "span not found for span: %q" [sid])) \/
      delete_fault (Spans (wh w)) sid = Some err)) \/
  IsError e = Err err \/
  TraceID e = Err err \/
  (exists tid, TraceID e = Ok (Some tid) /\
               delete_fault (Traces (wh w)) tid = Some err).
Proof.
  run_end. end_cases; intros [= <-]; eauto 10.
  right. left. eexists. split; [reflexivity|]. right. left.
  split; [|reflexivity].
  match goal with
  | H1 : get_fault _ _ = None, H2 : entries _ !! _ = None |- _ =>
      by rewrite H1, H2
  end.
Qed.

Lemma handleEndEvent_error_source_witness :
  let err := ErrorString "store unavailable" in
  (handleEndEvent end_s1 world_traces_delete_fails).2 = Err err /\
  (SpanID end_s1 = Err err \/
   (exists sid,
      SpanID end_s1 = Ok sid /\
      (get_fault (Spans (wh world_traces_delete_fails)) sid = Some err \/
       (store_get (Spans (wh world_traces_delete_fails)) sid = Ok None /\
        err = SpanMissingError (Errorf "span not found for span: %q" [sid])) \/
       delete_fault (Spans (wh world_traces_delete_fails)) sid = Some err)) \/
   IsError end_s1 = Err err \/
   TraceID end_s1 = Err err \/
   (exists tid, TraceID end_s1 = Ok (Some tid) /\
                delete_fault (Traces (wh world_traces_delete_fails)) tid =
                  Some err)).
Proof.
  split; [reflexivity|].
  apply (handleEndEvent_error_source end_s1 world_traces_delete_fails).
  reflexivity.
Defined.

(** A failure before the span is finished changes nothing: when the
    [SpanID] accessor, the Span Store lookup or the [IsError] accessor
    fails, [handleEndEvent] returns that error and both stores and every
    span are as before; the span is still open and the End event can be
    delivered again. *)
Theorem handleEndEvent_failure_before_finish (e : Event) (w : World)
    (err : error) :
  (SpanID e = Err err \/
   exists sid,
     SpanID e = Ok sid /\
     (get_fault (Spans (wh w)) sid = Some err \/
      ((exists h, store_get (Spans (wh w)) sid = Ok (Some h)) /\
       IsError e = Err err))) ->
  (handleEndEvent e w).2 = Err err /\
  wh (handleEndEvent e w).1 = wh w /\
  tracer (handleEndEvent e w).1 = tracer w.
Proof.
  unfold store_get.
  intros [Hs | (sid & Hs & [Hg | ((h & Hg) & Hi)])]; run_end; rewrite Hs; simpl.
  - done.
  - by rewrite Hg.
  - destruct (get_fault (Spans (wh w)) sid); [done|].
    injection Hg as ->. simpl. by rewrite Hi.
Qed.

Lemma handleEndEvent_failure_before_finish_witness :
  let err := ErrorString "status: malformed payload" in
  SpanID end_unreadable = Ok "s1" /\
  store_get (Spans (wh world_s1)) "s1" = Ok (Some 0) /\
  IsError end_unreadable = Err err /\
  (handleEndEvent end_unreadable world_s1).2 = Err err /\
  wh (handleEndEvent end_unreadable world_s1).1 = wh world_s1 /\
  tracer (handleEndEvent end_unreadable world_s1).1 = tracer world_s1.
Proof.
  do 3 (split; [reflexivity|]).
  apply (handleEndEvent_failure_before_finish end_unreadable world_s1
           (ErrorString "status: malformed payload")).
  right. exists "s1". split; [reflexivity|]. right.
  split; [exists 0|]; reflexivity.
Defined.

(** ** The tag loop *)

Lemma apply_tags_perm kvs kvs' sp :
  NoDup kvs.*1 -> kvs ≡ₚ kvs' -> apply_tags kvs sp = apply_tags kvs' sp.
Proof.
  intros Hnd Hperm.
  assert (NoDup kvs'.*1) as Hnd' by (by rewrite <- Hperm).
  pose proof (apply_tags_fields kvs sp) as (Ho & Hr & Hf).
  pose proof (apply_tags_fields kvs' sp) as (Ho' & Hr' & Hf').
  pose proof (apply_tags_tags kvs sp Hnd) as Ht.
  pose proof (apply_tags_tags kvs' sp Hnd') as Ht'.
  rewrite (list_to_map_proper kvs kvs' Hnd Hperm) in Ht.
  destruct (apply_tags kvs sp), (apply_tags kvs' sp); simpl in *. congruence.
Qed.

(** Go does not fix the order in which [range] visits a map.  The order
    does not matter here: for pairs with distinct keys, any two orders of
    the loop [span.SetTag(k, v)] leave the same spans (and the same stores,
    and never fail). *)
Theorem tag_loop_order_irrelevant (span : span_ref)
    (kvs kvs' : list (string * tag_value)) (w : World) :
  NoDup kvs.*1 ->
  kvs ≡ₚ kvs' ->
  (range kvs (fun k v => SetTag span k v) w).2 = Ok tt /\
  (range kvs' (fun k v => SetTag span k v) w).2 = Ok tt /\
  tracer (range kvs (fun k v => SetTag span k v) w).1 =
    tracer (range kvs' (fun k v => SetTag span k v) w).1 /\
  wh (range kvs (fun k v => SetTag span k v) w).1 =
    wh (range kvs' (fun k v => SetTag span k v) w).1.
Proof.
  intros Hnd Hperm. rewrite !range_SetTag. simpl. repeat split.
  unfold on_span. f_equal. apply list_alter_ext; [|done].
  intros sp _. by apply apply_tags_perm.
Qed.

Lemma tag_loop_order_irrelevant_witness :
  let kvs := [("team", VString "core"); ("priority", VInt 2)] in
  let kvs' := [("priority", VInt 2); ("team", VString "core")] in
  NoDup kvs.*1 /\
  kvs ≡ₚ kvs' /\
  (range kvs (fun k v => SetTag 0 k v) world_s1).2 = Ok tt /\
  (range kvs' (fun k v => SetTag 0 k v) world_s1).2 = Ok tt /\
  tracer (range kvs (fun k v => SetTag 0 k v) world_s1).1 =
    tracer (range kvs' (fun k v => SetTag 0 k v) world_s1).1 /\
  wh (range kvs (fun k v => SetTag 0 k v) world_s1).1 =
    wh (range kvs' (fun k v => SetTag 0 k v) world_s1).1.
Proof.
  assert (NoDup [("team", VString "core"); ("priority", VInt 2)].*1) as Hnd.
  { simpl. apply NoDup_cons. split; [|apply NoDup_singleton].
    rewrite list_elem_of_singleton. discriminate. }
  assert ([("team", VString "core"); ("priority", VInt 2)] ≡ₚ
          [("priority", VInt 2); ("team", VString "core")]) as Hperm.
  { apply perm_swap. }
  split; [exact Hnd|]. split; [exact Hperm|].
  exact (tag_loop_order_irrelevant 0 _ _ world_s1 Hnd Hperm).
Defined.

(** ** The secret *)

(** The handler validates with no secret at all (the nil slice) exactly
    when no secret is configured and the request carries no non-nil
    override. *)
Theorem secretKey_nil_iff (h : Webhook) (r : Request) :
  secretKey h r = None <->
  SecretKey h = None /\ forall v, CtxSecretToken r <> BytesValue (Some v).
Proof.
  unfold secretKey.
  destruct (CtxSecretToken r) as [|[v|]|]; simpl; split;
    try (intros H; split; [exact H | intros ?; discriminate]);
    try (intros [H _]; exact H);
    try discriminate.
  intros [_ H]. by destruct (H v).
Qed.

(** ** The HTTP handler *)

Lemma responses_Collaborator cs xs :
  responses (map Collaborator cs ++ xs) = responses xs.
Proof.
  unfold responses. rewrite List.filter_app.
  replace (List.filter is_response (map Collaborator cs)) with (@nil Effect);
    [done|].
  induction cs as [|c cs IH]; simpl; done.
Qed.

Lemma Forall_Collaborator (P : Effect -> Prop) cs :
  (forall c, P (Collaborator c)) -> Forall P (map Collaborator cs).
Proof. intros H. induction cs; simpl; constructor; auto. Qed.

(** Every request gets exactly one response: the body [success] when
    validation, parsing, tracer acquisition and [handleEvent] all succeed,
    and otherwise [http.Error] with the fixed text [error] and status 400,
    whatever the error was. *)
Theorem Handler_responds_once (i : Instance) (r : Request) :
  (responses (effects (Handler i r)) = [ResponseWrite "success"] \/
   responses (effects (Handler i r)) = [HttpError "error" 400]) /\
  (responses (effects (Handler i r)) = [ResponseWrite "success"] <->
   exists payload e t,
     ValidatePayload (wh_EventSource i) r (secretKey (wh_fields i) r) =
       (payload, None) /\
     Event_ (wh_EventSource i) r payload = Ok e /\
     RequestScoped (wh_Tracers i) r (wh_EventSource i) = Ok t /\
     (handleEvent e (mkWorld (wh_fields i) t [])).2 = Ok tt).
Proof.
  unfold Handler.
  destruct (ValidatePayload (wh_EventSource i) r (secretKey (wh_fields i) r))
    as [payload [err|]] eqn:Hv; simpl.
  { split; [by right|]. split; [done|]. intros (? & ? & ? & [= _] & _). }
  destruct (Event_ (wh_EventSource i) r payload) as [e|err] eqn:He; simpl.
  2:{ split; [by right|]. split; [done|].
      intros (? & ? & ? & [= <-] & He' & _). congruence. }
  destruct (RequestScoped (wh_Tracers i) r (wh_EventSource i))
    as [t|err] eqn:Ht; simpl.
  2:{ split; [by right|]. split; [done|].
      intros (? & ? & ? & _ & _ & [=] & _). }
  destruct (handleEvent e (mkWorld (wh_fields i) t [])) as [w [[]|err]] eqn:Hh;
    simpl; rewrite responses_Collaborator; simpl.
  - split; [by left|]. split; [|done]. intros _.
    exists payload, e, t. rewrite Hh. done.
  - split; [by right|]. split; [done|].
    intros (? & ? & ? & [= <-] & He' & Ht' & Hh').
    rewrite He in He'. injection He' as <-. injection Ht' as <-.
    rewrite Hh in Hh'. done.
Qed.

Ltac forall_list :=
  repeat first
    [ exact I
    | apply Forall_nil
    | apply Forall_cons; split; [done|] ].

(** The deferred closes.  The request body is closed by the handler exactly
    when validation passed, and the tracer's closer exactly when a tracer
    was obtained (also when [handleEvent] then fails); each at most once,
    after everything else including the response, the closer first. *)
Theorem Handler_deferred_closes (i : Instance) (r : Request) :
  exists xs,
    Forall (fun x => is_close x = false) xs /\
    effects (Handler i r) =
      xs ++
      match (ValidatePayload (wh_EventSource i) r
               (secretKey (wh_fields i) r)).2,
            tracer_after (Handler i r) with
      | Some _, _ => []
      | None, None => [BodyClose]
      | None, Some _ => [CloserClose; BodyClose]
      end.
Proof.
  unfold Handler.
  destruct (ValidatePayload (wh_EventSource i) r (secretKey (wh_fields i) r))
    as [payload [err|]]; simpl.
  { eexists. rewrite app_nil_r. split; [|reflexivity].
    forall_list. }
  destruct (Event_ (wh_EventSource i) r payload) as [e|err]; simpl.
  2:{ exists [Validate (secretKey (wh_fields i) r); Parse payload;
              LogErrorf "unable to convert payload to event" err payload None;
              HttpError "error" StatusBadRequest].
      split; [|reflexivity].
      forall_list. }
  destruct (RequestScoped (wh_Tracers i) r (wh_EventSource i)) as [t|err];
    simpl.
  2:{ exists [Validate (secretKey (wh_fields i) r); Parse payload;
              AcquireTracer;
              LogErrorf "error getting tracer from request" err payload None;
              HttpError "error" StatusBadRequest].
      split; [|reflexivity].
      forall_list. }
  destruct (handleEvent e (mkWorld (wh_fields i) t [])) as [w res]; simpl.
  exists (Validate (secretKey (wh_fields i) r) :: Parse payload ::
          AcquireTracer ::
          map Collaborator (calls w) ++
          match res with
          | Err err =>
              [LogErrorf "error processinng event" err payload (Some e);
               HttpError "error" StatusBadRequest]
          | Ok _ => [ResponseWrite "success"]
          end).
  split; [|simpl; by rewrite <- app_assoc].
  repeat (apply Forall_cons; split; [done|]).
  apply Forall_app. split; [by apply Forall_Collaborator|].
  destruct res as [[]|err]; forall_list.
Qed.

(** A request that fails validation, parsing or tracer acquisition never
    reaches the stores: they are as before, no tracer is in use, and no
    store or tracer call is among the effects. *)
Theorem Handler_rejected_early (i : Instance) (r : Request) :
  ((exists payload err,
      ValidatePayload (wh_EventSource i) r (secretKey (wh_fields i) r) =
        (payload, Some err)) \/
   (exists payload err,
      ValidatePayload (wh_EventSource i) r (secretKey (wh_fields i) r) =
        (payload, None) /\
      Event_ (wh_EventSource i) r payload = Err err) \/
   (exists err, RequestScoped (wh_Tracers i) r (wh_EventSource i) = Err err)) ->
  stores_after (Handler i r) = wh_fields i /\
  tracer_after (Handler i r) = None /\
  Forall (fun x => is_Collaborator x = false) (effects (Handler i r)) /\
  responses (effects (Handler i r)) = [HttpError "error" 400].
Proof.
  unfold Handler.
  intros [(payload & err & Hv) | [(payload & err & Hv & He) | (err & Ht)]].
  - rewrite Hv. simpl. repeat split.
    forall_list.
  - rewrite Hv. simpl. rewrite He. simpl. repeat split.
    forall_list.
  - destruct (ValidatePayload (wh_EventSource i) r
                (secretKey (wh_fields i) r)) as [payload [err'|]]; simpl.
    { repeat split.
      forall_list. }
    destruct (Event_ (wh_EventSource i) r payload) as [e|err']; simpl.
    2:{ repeat split.
        forall_list. }
    rewrite Ht. simpl. repeat split.
    forall_list.
Qed.

Lemma Handler_rejected_early_witness :
  let i := mkInstance rejecting_source fresh_tracers (wh world_s1) in
  ValidatePayload rejecting_source plain_request
    (secretKey (wh world_s1) plain_request) =
    (None, Some (ErrorString "bad signature")) /\
  stores_after (Handler i plain_request) = wh world_s1 /\
  tracer_after (Handler i plain_request) = None /\
  Forall (fun x => is_Collaborator x = false) (effects (Handler i plain_request)) /\
  responses (effects (Handler i plain_request)) = [HttpError "error" 400].
Proof.
  split; [reflexivity|].
  apply (Handler_rejected_early
           (mkInstance rejecting_source fresh_tracers (wh world_s1))
           plain_request).
  left. exists None, (ErrorString "bad signature"). reflexivity.
Defined.

(** The handler validates once, first of all, and with the secret that
    [secretKey] resolves: the override of the request when it carries a
    non-nil one, the configured secret otherwise. *)
Theorem Handler_validates_first (i : Instance) (r : Request) :
  exists rest,
    effects (Handler i r) =
      Validate match CtxSecretToken r with
               | BytesValue (Some v) => Some v
               | _ => SecretKey (wh_fields i)
               end :: rest /\
    Forall (fun x => is_Validate x = false) rest.
Proof.
  assert (secretKey (wh_fields i) r =
          match CtxSecretToken r with
          | BytesValue (Some v) => Some v
          | _ => SecretKey (wh_fields i)
          end) as <-.
  { unfold secretKey. by destruct (CtxSecretToken r) as [|[v|]|]. }
  unfold Handler.
  destruct (ValidatePayload (wh_EventSource i) r (secretKey (wh_fields i) r))
    as [payload [err|]]; simpl.
  { eexists. split; [reflexivity|].
    forall_list. }
  destruct (Event_ (wh_EventSource i) r payload) as [e|err]; simpl.
  2:{ eexists. split; [reflexivity|].
      forall_list. }
  destruct (RequestScoped (wh_Tracers i) r (wh_EventSource i)) as [t|err];
    simpl.
  2:{ eexists. split; [reflexivity|].
      forall_list. }
  destruct (handleEvent e (mkWorld (wh_fields i) t [])) as [w res]; simpl.
  eexists. split; [reflexivity|].
  repeat (apply Forall_cons; split; [done|]).
  apply Forall_app. split; [by apply Forall_Collaborator|].
  apply Forall_app. split.
  - destruct res as [[]|err]; forall_list.
  - forall_list.
Qed.

(** An event outside the Start/End lifecycle is acknowledged: the handler
    answers [success], makes no store or tracer call, leaves the stores as
    they were, and still closes the tracer and the body. *)
Theorem Handler_ignores_other_events (i : Instance) (r : Request)
    (payload : bytes) (e : Event) (t : Tracer) (name : string) :
  ValidatePayload (wh_EventSource i) r (secretKey (wh_fields i) r) =
    (payload, None) ->
  Event_ (wh_EventSource i) r payload = Ok e ->
  RequestScoped (wh_Tracers i) r (wh_EventSource i) = Ok t ->
  State e = Ok (OtherState name) ->
  effects (Handler i r) =
    [Validate (secretKey (wh_fields i) r); Parse payload; AcquireTracer;
     ResponseWrite "success"; CloserClose; BodyClose] /\
  stores_after (Handler i r) = wh_fields i /\
  tracer_after (Handler i r) = Some t.
Proof.
  intros Hv He Ht Hs. unfold Handler. rewrite Hv. simpl. rewrite He, Ht.
  unfold handleEvent, bind, try, ret. rewrite Hs. done.
Qed.

Lemma Handler_ignores_other_events_witness :
  let i := instance_of comment_event (wh world_s1) in
  State comment_event = Ok (OtherState "comment") /\
  effects (Handler i plain_request) =
    [Validate (secretKey (wh_fields i) plain_request); Parse (Some []);
     AcquireTracer; ResponseWrite "success"; CloserClose; BodyClose] /\
  stores_after (Handler i plain_request) = wh_fields i /\
  tracer_after (Handler i plain_request) = Some (mkTracer []).
Proof.
  split; [reflexivity|].
  apply (Handler_ignores_other_events
           (instance_of comment_event (wh world_s1)) plain_request (Some [])
           comment_event (mkTracer []) "comment"); reflexivity.
Defined.

(** An End event without an open span is answered with the same [error]
    response as any failure; the span-missing error and the event go to the
    log only.  The one store call is the lookup, and the stores are
    unchanged. *)
Theorem Handler_orphan_end (i : Instance) (r : Request) (payload : bytes)
    (e : Event) (t : Tracer) (sid : string) :
  ValidatePayload (wh_EventSource i) r (secretKey (wh_fields i) r) =
    (payload, None) ->
  Event_ (wh_EventSource i) r payload = Ok e ->
  RequestScoped (wh_Tracers i) r (wh_EventSource i) = Ok t ->
  State e = Ok EndState ->
  SpanID e = Ok sid ->
  store_get (Spans (wh_fields i)) sid = Ok None ->
  effects (Handler i r) =
    [Validate (secretKey (wh_fields i) r); Parse payload; AcquireTracer;
     Collaborator (CallGet SpansStore sid);
     LogErrorf "error processinng event"
       (SpanMissingError (Errorf "span not found for span: %q" [sid]))
       payload (Some e);
     HttpError "error" 400; CloserClose; BodyClose] /\
  stores_after (Handler i r) = wh_fields i /\
  tracer_after (Handler i r) = Some t.
Proof.
  intros Hv He Ht Hs Hsid Hget. unfold Handler. rewrite Hv. simpl.
  rewrite He, Ht. rewrite (handleEvent_End e Hs).
  rewrite (end_missing e (mkWorld (wh_fields i) t []) sid Hsid Hget). done.
Qed.

Lemma Handler_orphan_end_witness :
  let i := instance_of end_unknown (wh world_s1) in
  State end_unknown = Ok EndState /\
  SpanID end_unknown = Ok "s-unknown" /\
  store_get (Spans (wh_fields i)) "s-unknown" = Ok None /\
  effects (Handler i plain_request) =
    [Validate (secretKey (wh_fields i) plain_request); Parse (Some []);
     AcquireTracer; Collaborator (CallGet SpansStore "s-unknown");
     LogErrorf "error processinng event"
       (SpanMissingError (Errorf "span not found for span: %q" ["s-unknown"]))
       (Some []) (Some end_unknown);
     HttpError "error" 400; CloserClose; BodyClose] /\
  stores_after (Handler i plain_request) = wh_fields i /\
  tracer_after (Handler i plain_request) = Some (mkTracer []).
Proof.
  do 3 (split; [reflexivity|]).
  apply (Handler_orphan_end (instance_of end_unknown (wh world_s1))
           plain_request (Some []) end_unknown (mkTracer []) "s-unknown");
    reflexivity.
Defined.


